(** * Processed agent data store: CRUD handlers and WebSocket fan-out

    A shallow embedding of [main.py] and [models/processed_agent_data.py].
    The handlers are written in a small state-and-exception monad over a
    [World] that holds the table, the open session, the subscription
    registry and a trace of the observable events. Requests are handled one
    at a time; the faults of the store and the closed connections are part
    of the world, so that every handler is a function. *)

From Stdlib Require Import ZArith List Ascii Floats.SpecFloat.
From stdpp Require Import base gmap sets list strings.

Set Warnings "-register-all".

Local Open Scope string_scope.
Local Open Scope Z_scope.
Local Open Scope list_scope.

(** ** Python values *)

(** A Python [float] is an IEEE 754 binary64 value. *)
Definition float : Type := spec_float.

(** [float(n)]: the nearest binary64 value. *)
Definition float_of_int (n : Z) : float := binary_normalize 53 1024 n 0 false.

Definition is_finite (f : float) : bool :=
  match f with
  | S754_zero _ | S754_finite _ _ _ => true
  | S754_infinity _ | S754_nan => false
  end.

(** The values that reach the code: what [json.loads] builds from a request
    body, and the [CursorResult] that [Session.execute] returns for an
    insert (an object carrying [inserted_primary_key]). *)
Inductive pyobj : Type :=
  | PyNone
  | PyBool (b : bool)
  | PyInt (n : Z)
  | PyFloat (f : float)
  | PyStr (s : string)
  | PyList (l : list pyobj)
  | PyDict (d : list (string * pyobj))
  | PyCursorResult (inserted_primary_key : Z).

(** [d.get(k)] on a decoded JSON object; a dict has one binding per key,
    and the list holds the bindings in insertion order. *)
Fixpoint dict_get (k : string) (d : list (string * pyobj)) : option pyobj :=
  match d with
  | [] => None
  | (k', v) :: d' => if String.eqb k' k then Some v else dict_get k d'
  end.

(** [json.dumps] encodes [None], booleans, numbers, strings, lists and
    dicts; on any other object its default encoder raises [TypeError]. *)
Fixpoint json_serializable (v : pyobj) : bool :=
  match v with
  | PyNone | PyBool _ | PyInt _ | PyFloat _ | PyStr _ => true
  | PyList l => forallb json_serializable l
  | PyDict d => forallb (fun kv => json_serializable (snd kv)) d
  | PyCursorResult _ => false
  end.

(** ** Exceptions *)

Inductive exn : Type :=
  | RequestValidationError                       (* 422, raised before the handler runs *)
  | HTTPException (status_code : Z) (detail : string)
  | TypeError                                    (* json.dumps of a non-serializable object *)
  | DBAPIError                                   (* the store rejected a statement or a commit *)
  | KeyError                                     (* subscriptions[user_id].remove(websocket) *)
  | WebSocketSendError (websocket : nat).        (* send_json on a closed connection *)

(** The text [json.dumps v] returns for a serializable [v]; the character
    string itself is not spelled out. *)
Inductive json_text : Type := Dumps (v : pyobj).

(** ** Decoding JSON values *)

Definition field (k : string) (v : pyobj) : option pyobj :=
  match v with
  | PyDict d => dict_get k d
  | _ => None
  end.

Definition validate_str (v : pyobj) : option string :=
  match v with
  | PyStr s => Some s
  | _ => None
  end.

Definition validate_int (v : pyobj) : option Z :=
  match v with
  | PyInt n => Some n
  | _ => None
  end.

Definition validate_float (v : pyobj) : option float :=
  match v with
  | PyFloat f => if is_finite f then Some f else None
  | PyInt n => if is_finite (float_of_int n) then Some (float_of_int n) else None
  | _ => None
  end.

Definition sample_agent_data (uid : Z) (vx : pyobj) : pyobj :=
  PyDict [("user_id", PyInt uid);
          ("accelerometer", PyDict [("x", vx); ("y", PyInt 0); ("z", PyInt 10)]);
          ("gps", PyDict [("latitude", PyInt 50); ("longitude", PyInt 30)]);
          ("timestamp", PyStr "2024-01-01T00:00:00Z")].

Definition sample_payload (rs : string) (uid : Z) (vx : pyobj) : pyobj :=
  PyDict [("road_state", PyStr rs); ("agent_data", sample_agent_data uid vx)].

(** An instance of the date-time parameters below, for running the model:
    the parsed value is the text of the timestamp. *)
Definition text_datetime : Type := string.
Definition parse_text_datetime (v : pyobj) : option text_datetime := validate_str v.

(** What the typed columns of the table keep of a value written to them:
    [Column("x", Float)] and its like for a [float], and
    [Column("timestamp", DateTime)] for a date-time. The store is not part
    of the sources; the properties hold whatever the columns do. *)
Class Columns (datetime : Type) : Type := {
  column_float : float -> float;
  column_datetime : datetime -> datetime
}.

(** The columns as the store is seen to behave: a zero is read back without
    its sign, and a date-time without its UTC offset, a [DateTime] column
    having no time zone. *)
Definition unsigned_zero (f : float) : float :=
  match f with
  | S754_zero _ => S754_zero false
  | _ => f
  end.

Fixpoint until_offset (s : string) : string :=
  match s with
  | EmptyString => EmptyString
  | String c s' =>
      if (Ascii.eqb c "Z"%char || Ascii.eqb c "+"%char || Ascii.eqb c "-"%char)%bool
      then EmptyString
      else String c (until_offset s')
  end.

(** The date and the [T] are kept; the time is cut at [Z], [+] or [-]. *)
Definition without_offset (s : text_datetime) : text_datetime :=
  String.append (String.substring 0 11 s) (until_offset (String.substring 11 (String.length s) s)).

#[global] Instance text_columns : Columns text_datetime :=
  {| column_float := unsigned_zero; column_datetime := without_offset |}.

(** A connected client: the identity of a [WebSocket] object. *)
Abbreviation WebSocket := nat.

Section Store.

(** [models/agent_data.py] is not part of the sources at hand: the type of
    its [timestamp] field and the parser that validates it are parameters. *)
Variable datetime : Type.
Variable parse_datetime : pyobj -> option datetime.
Context {columns : Columns datetime}.

(** ** Records *)

Record AccelerometerData : Type := { x : float; y : float; z : float }.
Record GpsData : Type := { latitude : float; longitude : float }.

(** The fields [main.py] reads from [item.agent_data]. *)
Record AgentData : Type := {
  user_id : Z;
  accelerometer : AccelerometerData;
  gps : GpsData;
  timestamp : datetime
}.

(** [models/processed_agent_data.py] *)
Record ProcessedAgentData : Type := {
  road_state : string;
  agent_data : AgentData
}.

(** A row of the [processed_agent_data] table, column by column. *)
Record Row : Type := {
  col_id : Z;
  col_road_state : string;
  col_user_id : Z;
  col_x : float;
  col_y : float;
  col_z : float;
  col_latitude : float;
  col_longitude : float;
  col_timestamp : datetime
}.

(** Modelled from the spec: [models/processed_agent_data_in_db.py] is
    absent. By section 3 a [ProcessedAgentDataInDB] is the flattened record
    plus its [id], that is, the nine columns of a row; the handlers build it
    from the columns [row._asdict()] of a fetched row ([from_row]). *)
Record ProcessedAgentDataInDB : Type := {
  rec_id : Z;
  rec_road_state : string;
  rec_user_id : Z;
  rec_x : float;
  rec_y : float;
  rec_z : float;
  rec_latitude : float;
  rec_longitude : float;
  rec_timestamp : datetime
}.

Definition from_row (row : Row) : ProcessedAgentDataInDB :=
  {| rec_id := col_id row;
     rec_road_state := col_road_state row;
     rec_user_id := col_user_id row;
     rec_x := col_x row;
     rec_y := col_y row;
     rec_z := col_z row;
     rec_latitude := col_latitude row;
     rec_longitude := col_longitude row;
     rec_timestamp := col_timestamp row |}.

(** What a handler hands back to FastAPI for the response body. *)
Inductive response : Type :=
  | RespNone
  | RespRecord (r : ProcessedAgentDataInDB)
  | RespList (l : list ProcessedAgentDataInDB).

(** ** The world the handlers run in *)

Inductive Event : Type :=
  | EvInsert (r : Row)                          (* INSERT executed in the open transaction *)
  | EvUpdate (r : Row)
  | EvDelete (id : Z)
  | EvCommit (t : gmap Z Row)                   (* COMMIT: [t] is the table made durable *)
  | EvRollback
  | EvBroadcast (user : Z) (data : pyobj)       (* send_data_to_subscribers entered *)
  | EvSend (websocket : WebSocket) (text : json_text).  (* frame written to a connection *)

Record World : Type := {
  table : gmap Z Row;                           (* committed rows, by id *)
  tx : gmap Z Row;                              (* the rows as the open session sees them *)
  id_seq : Z;                                   (* next value of the id sequence *)
  db_faults : list bool;                        (* outcome of the coming store calls:
                                                   [true] raises, none left answers *)
  subscriptions : gmap Z (gset WebSocket);
  closed : gset WebSocket;                      (* connections on which a send raises *)
  trace : list Event                            (* oldest event first *)
}.

Definition set_table (t : gmap Z Row) (w : World) : World :=
  {| table := t; tx := tx w; id_seq := id_seq w; db_faults := db_faults w;
     subscriptions := subscriptions w; closed := closed w; trace := trace w |}.
Definition set_tx (t : gmap Z Row) (w : World) : World :=
  {| table := table w; tx := t; id_seq := id_seq w; db_faults := db_faults w;
     subscriptions := subscriptions w; closed := closed w; trace := trace w |}.
Definition set_id_seq (n : Z) (w : World) : World :=
  {| table := table w; tx := tx w; id_seq := n; db_faults := db_faults w;
     subscriptions := subscriptions w; closed := closed w; trace := trace w |}.
Definition set_db_faults (fs : list bool) (w : World) : World :=
  {| table := table w; tx := tx w; id_seq := id_seq w; db_faults := fs;
     subscriptions := subscriptions w; closed := closed w; trace := trace w |}.
Definition set_subscriptions (s : gmap Z (gset WebSocket)) (w : World) : World :=
  {| table := table w; tx := tx w; id_seq := id_seq w; db_faults := db_faults w;
     subscriptions := s; closed := closed w; trace := trace w |}.
Definition set_closed (c : gset WebSocket) (w : World) : World :=
  {| table := table w; tx := tx w; id_seq := id_seq w; db_faults := db_faults w;
     subscriptions := subscriptions w; closed := c; trace := trace w |}.
Definition set_trace (t : list Event) (w : World) : World :=
  {| table := table w; tx := tx w; id_seq := id_seq w; db_faults := db_faults w;
     subscriptions := subscriptions w; closed := closed w; trace := t |}.

(** ** State and exceptions *)

Definition M (A : Type) : Type := World -> World * (exn + A).

Definition ret {A : Type} (a : A) : M A := fun w => (w, inr a).
Definition raise {A : Type} (e : exn) : M A := fun w => (w, inl e).
Definition bind {A B : Type} (m : M A) (k : A -> M B) : M B :=
  fun w =>
    match m w with
    | (w', inr a) => k a w'
    | (w', inl e) => (w', inl e)
    end.

(** [try: body  except Exception as e: handler e] *)
Definition try_except {A : Type} (body : M A) (handler : exn -> M A) : M A :=
  fun w =>
    match body w with
    | (w', inl e) => handler e w'
    | (w', inr a) => (w', inr a)
    end.

#[local] Instance M_ret : MRet M := @ret.
#[local] Instance M_bind : MBind M := fun A B k m => bind m k.

Definition get : M World := fun w => (w, inr w).
Definition modify (f : World -> World) : M unit := fun w => (f w, inr tt).

(** [for v in l: body v] *)
Fixpoint for_each {A : Type} (l : list A) (body : A -> M unit) : M unit :=
  match l with
  | [] => ret tt
  | v :: l' => body v ;; for_each l' body
  end.

Definition log (e : Event) : M unit :=
  modify (fun w => set_trace (trace w ++ [e]) w).

(** ** The session *)

(** One round trip to the store; it raises when the store reports a fault. *)
Definition store_call : M unit :=
  fun w =>
    (set_db_faults (tail (db_faults w)) w,
     if hd false (db_faults w) then inl DBAPIError else inr tt).

(** A row as the table keeps it once written: the [Float] and [DateTime]
    columns keep their rendering of the value handed over; the id, the
    [String] column and the [Integer] column keep the value itself (a value
    they cannot hold makes the statement fail, which [db_faults] covers). *)
Definition through_columns (row : Row) : Row :=
  {| col_id := col_id row;
     col_road_state := col_road_state row;
     col_user_id := col_user_id row;
     col_x := column_float (col_x row);
     col_y := column_float (col_y row);
     col_z := column_float (col_z row);
     col_latitude := column_float (col_latitude row);
     col_longitude := column_float (col_longitude row);
     col_timestamp := column_datetime (col_timestamp row) |}.

(** [db.execute(processed_agent_data.insert().values(...))]: the store draws
    the id from the sequence and writes the values through the columns; the
    result carries [inserted_primary_key]. *)
Definition execute_insert (values : Z -> Row) : M pyobj :=
  store_call ;;
  w ← get;
  let id := id_seq w in
  modify (fun w => set_id_seq (id + 1) (set_tx (<[id := through_columns (values id)]> (tx w)) w)) ;;
  log (EvInsert (through_columns (values id))) ;;
  ret (PyCursorResult id).

(** [db.execute(select(processed_agent_data).where(c.id == id)).fetchone()] *)
Definition execute_select_one (id : Z) : M (option Row) :=
  store_call ;;
  w ← get;
  ret (tx w !! id).

(** [db.execute(select(processed_agent_data)).fetchall()] *)
Definition execute_select_all : M (list Row) :=
  store_call ;;
  w ← get;
  ret (snd <$> map_to_list (tx w)).

(** [db.execute(update(processed_agent_data).where(c.id == id).values(...))]:
    every column but [id] is overwritten, the values being written through
    the columns; the result is [rowcount]. *)
Definition execute_update (id : Z) (values : Z -> Row) : M Z :=
  store_call ;;
  w ← get;
  match tx w !! id with
  | Some _ =>
      modify (set_tx (<[id := through_columns (values id)]> (tx w))) ;;
      log (EvUpdate (through_columns (values id))) ;;
      ret 1
  | None => ret 0
  end.

(** [db.execute(delete(processed_agent_data).where(c.id == id))] *)
Definition execute_delete (id : Z) : M unit :=
  store_call ;;
  modify (fun w => set_tx (delete id (tx w)) w) ;;
  log (EvDelete id).

(** [db.commit()] *)
Definition commit : M unit :=
  store_call ;;
  modify (fun w => set_table (tx w) w) ;;
  w ← get;
  log (EvCommit (table w)).

(** [db.rollback()] *)
Definition rollback : M unit :=
  modify (fun w => set_tx (table w) w) ;;
  log EvRollback.

(** [with SessionLocal() as db: body]: a fresh session sees the committed
    rows; leaving the block closes it, which drops what was not committed. *)
Definition with_session {A : Type} (body : M A) : M A :=
  fun w =>
    let (w', r) := body (set_tx (table w) w) in
    (set_tx (table w') w', r).

(** ** WebSocket subscriptions *)

(** [websocket_endpoint] up to the receive loop: accept and register. *)
Definition websocket_endpoint_connect (websocket : WebSocket) (user_id : Z) : M unit :=
  w ← get;
  let s := default ∅ (subscriptions w !! user_id) in
  modify (set_subscriptions (<[user_id := {[websocket]} ∪ s]> (subscriptions w))).

(** [websocket_endpoint] when [receive_text] raises [WebSocketDisconnect]:
    [subscriptions[user_id].remove(websocket)]. *)
Definition websocket_endpoint_disconnect (websocket : WebSocket) (user_id : Z) : M unit :=
  modify (fun w => set_closed ({[websocket]} ∪ closed w) w) ;;
  w ← get;
  match subscriptions w !! user_id with
  | Some s =>
      if decide (websocket ∈ s)
      then modify (set_subscriptions (<[user_id := s ∖ {[websocket]}]> (subscriptions w)))
      else raise KeyError
  | None => raise KeyError
  end.

Definition json_dumps (v : pyobj) : M json_text :=
  if json_serializable v then ret (Dumps v) else raise TypeError.

(** [websocket.send_json(text)]: the frame written is the JSON encoding of
    the str [text]; on a closed connection the call raises. *)
Definition send_json (websocket : WebSocket) (text : json_text) : M unit :=
  w ← get;
  if decide (websocket ∈ closed w)
  then raise (WebSocketSendError websocket)
  else log (EvSend websocket text).

Definition send_data_to_subscribers (user_id : Z) (data : pyobj) : M unit :=
  log (EvBroadcast user_id data) ;;
  w ← get;
  match subscriptions w !! user_id with
  | Some s =>
      for_each (elements s) (fun websocket =>
        text ← json_dumps data;
        send_json websocket text)
  | None => ret tt
  end.

(** ** CRUD endpoints *)

Definition insert_values (item : ProcessedAgentData) (id : Z) : Row :=
  {| col_id := id;
     col_road_state := road_state item;
     col_user_id := user_id (agent_data item);
     col_x := x (accelerometer (agent_data item));
     col_y := y (accelerometer (agent_data item));
     col_z := z (accelerometer (agent_data item));
     col_latitude := latitude (gps (agent_data item));
     col_longitude := longitude (gps (agent_data item));
     col_timestamp := timestamp (agent_data item) |}.

(** The body of the loop of [create_processed_agent_data]. *)
Definition create_item (item : ProcessedAgentData) : M unit :=
  try_except
    (result ← execute_insert (insert_values item);
     commit ;;
     send_data_to_subscribers (user_id (agent_data item)) result)
    (fun e => rollback ;; raise e).

Definition create_processed_agent_data (data : list ProcessedAgentData) : M response :=
  with_session
    (for_each data create_item ;;
     ret RespNone).

Definition http_404 (detail : string) : exn := HTTPException 404 detail.

Definition read_processed_agent_data (processed_agent_data_id : Z) : M response :=
  with_session
    (result ← execute_select_one processed_agent_data_id;
     match result with
     | None => raise (http_404 "ProcessedAgentData not found")
     | Some row => ret (RespRecord (from_row row))
     end).

Definition list_processed_agent_data : M response :=
  with_session
    (results ← execute_select_all;
     ret (RespList (from_row <$> results))).

Definition update_processed_agent_data (processed_agent_data_id : Z)
    (data : ProcessedAgentData) : M response :=
  with_session
    (rowcount ← execute_update processed_agent_data_id (insert_values data);
     commit ;;
     if Z.eqb rowcount 0
     then raise (http_404 "ProcessedAgentData not found")
     else
       updated_result ← execute_select_one processed_agent_data_id;
       match updated_result with
       | None => raise (http_404 "Failed to fetch updated ProcessedAgentData")
       | Some row => ret (RespRecord (from_row row))
       end).

Definition delete_processed_agent_data (processed_agent_data_id : Z) : M response :=
  with_session
    (result ← execute_select_one processed_agent_data_id;
     match result with
     | None => raise (http_404 "ProcessedAgentData not found")
     | Some row =>
         execute_delete processed_agent_data_id ;;
         commit ;;
         ret (RespRecord (from_row row))
     end).

(** ** Request validation *)

(** Modelled from the spec: [models/agent_data.py] is absent. Following
    sections 3 and 4.1, [user_id] is an integer, [x], [y], [z], [latitude]
    and [longitude] are finite numbers, [timestamp] parses to a date-time,
    and every field is required. *)
Definition validate_AccelerometerData (v : pyobj) : option AccelerometerData :=
  vx ← field "x" v ≫= validate_float;
  vy ← field "y" v ≫= validate_float;
  vz ← field "z" v ≫= validate_float;
  Some {| x := vx; y := vy; z := vz |}.

Definition validate_GpsData (v : pyobj) : option GpsData :=
  lat ← field "latitude" v ≫= validate_float;
  lon ← field "longitude" v ≫= validate_float;
  Some {| latitude := lat; longitude := lon |}.

Definition validate_AgentData (v : pyobj) : option AgentData :=
  uid ← field "user_id" v ≫= validate_int;
  acc ← field "accelerometer" v ≫= validate_AccelerometerData;
  pos ← field "gps" v ≫= validate_GpsData;
  ts ← field "timestamp" v ≫= parse_datetime;
  Some {| user_id := uid; accelerometer := acc; gps := pos; timestamp := ts |}.

(** [ProcessedAgentData]: [road_state: str], [agent_data: AgentData]. *)
Definition validate_ProcessedAgentData (v : pyobj) : option ProcessedAgentData :=
  rs ← field "road_state" v ≫= validate_str;
  ad ← field "agent_data" v ≫= validate_AgentData;
  Some {| road_state := rs; agent_data := ad |}.

(** The body parameter [data: List[ProcessedAgentData]]. *)
Definition validate_body (body : pyobj) : option (list ProcessedAgentData) :=
  match body with
  | PyList l => mapM validate_ProcessedAgentData l
  | _ => None
  end.

(** [POST /processed_agent_data/]: FastAPI validates the whole body, and
    only then calls the handler. *)
Definition post_processed_agent_data (body : pyobj) : M response :=
  match validate_body body with
  | None => raise RequestValidationError
  | Some data => create_processed_agent_data data
  end.

(** ** Observations and sample data *)

(** A fresh deployment: no row, no subscriber, a store that answers. *)
Definition empty_world : World :=
  {| table := ∅; tx := ∅; id_seq := 1; db_faults := [];
     subscriptions := ∅; closed := ∅; trace := [] |}.

(** Run a handler for its final world, whatever it returned. *)
Definition exec {A : Type} (m : M A) (w : World) : World := fst (m w).

(** The handles registered under a user id. *)
Definition registered (user : Z) (w : World) : gset WebSocket :=
  default ∅ (subscriptions w !! user).

(** The texts written to one connection, oldest first. *)
Fixpoint sent_to (websocket : WebSocket) (tr : list Event) : list json_text :=
  match tr with
  | [] => []
  | EvSend h text :: tr' =>
      if decide (h = websocket) then text :: sent_to websocket tr'
      else sent_to websocket tr'
  | _ :: tr' => sent_to websocket tr'
  end.

(** The store answers every call that is still to come. *)
Definition store_reliable (w : World) : Prop :=
  Forall (fun b => b = false) (db_faults w).

(** The first two statements of the loop body of create: the insert and its
    commit. *)
Definition insert_and_commit (item : ProcessedAgentData) : M pyobj :=
  result ← execute_insert (insert_values item);
  commit;;
  ret result.

(** The body of the loop of [send_data_to_subscribers]. *)
Definition send_to_one (data : pyobj) (websocket : WebSocket) : M unit :=
  text ← json_dumps data; send_json websocket text.

(** The events that push towards subscribers. *)
Definition is_push (e : Event) : bool :=
  match e with
  | EvBroadcast _ _ | EvSend _ _ => true
  | _ => false
  end.

(** Follow keys down nested JSON objects. *)
Fixpoint path (ks : list string) (v : pyobj) : option pyobj :=
  match ks with
  | [] => Some v
  | k :: ks' => field k v ≫= path ks'
  end.

(** What validation checks in one item of the body: [road_state] is a
    string, [user_id] an integer, the five readings finite numbers, and
    [timestamp] a date-time. *)
Definition constraint_violated (v : pyobj) : Prop :=
  field "road_state" v ≫= validate_str = None \/
  path ["agent_data"; "user_id"] v ≫= validate_int = None \/
  path ["agent_data"; "accelerometer"; "x"] v ≫= validate_float = None \/
  path ["agent_data"; "accelerometer"; "y"] v ≫= validate_float = None \/
  path ["agent_data"; "accelerometer"; "z"] v ≫= validate_float = None \/
  path ["agent_data"; "gps"; "latitude"] v ≫= validate_float = None \/
  path ["agent_data"; "gps"; "longitude"] v ≫= validate_float = None \/
  path ["agent_data"; "timestamp"] v ≫= parse_datetime = None.

(** Handles 1 and 2 subscribed under user 7, handle 3 under user 8. *)
Definition world_7_7_8 : World :=
  exec (websocket_endpoint_connect 3%nat 8)
    (exec (websocket_endpoint_connect 2%nat 7)
       (exec (websocket_endpoint_connect 1%nat 7) empty_world)).

Definition sample_item (rs : string) (uid : Z) (ts : datetime) : ProcessedAgentData :=
  {| road_state := rs;
     agent_data :=
       {| user_id := uid;
          accelerometer := {| x := float_of_int 1; y := float_of_int 0; z := float_of_int 10 |};
          gps := {| latitude := float_of_int 50; longitude := float_of_int 30 |};
          timestamp := ts |} |}.

(** The pushes in a trace: calls of the broadcast and frames written. *)
Definition pushes (tr : list Event) : list Event := List.filter is_push tr.

(** Every stored row sits under its own id, below the id sequence. *)
Definition store_coherent (w : World) : Prop :=
  forall j row, table w !! j = Some row -> col_id row = j /\ j < id_seq w.

(** The ids the store drew for the inserts of a trace, oldest first. *)
Fixpoint ids_drawn (tr : list Event) : list Z :=
  match tr with
  | [] => []
  | EvInsert r :: tr' => col_id r :: ids_drawn tr'
  | _ :: tr' => ids_drawn tr'
  end.

(** From [w] to [w'] the trace has grown, and the ids drawn meanwhile are
    pairwise distinct, at or above the id sequence of [w] and below that of
    [w']. *)
Definition draws_fresh_ids (w w' : World) : Prop :=
  id_seq w <= id_seq w' /\
  exists new,
    trace w' = trace w ++ new /\
    NoDup (ids_drawn new) /\
    forall j, j ∈ ids_drawn new -> id_seq w <= j < id_seq w'.

(** What happens to a running server: the requests it handles, one at a
    time, and what its surroundings do to it (the store starts to fail, a
    connection is lost). *)
Inductive action : Type :=
  | ActCreate (data : list ProcessedAgentData)
  | ActRead (id : Z)
  | ActList
  | ActUpdate (id : Z) (data : ProcessedAgentData)
  | ActDelete (id : Z)
  | ActConnect (websocket : WebSocket) (user : Z)
  | ActDisconnect (websocket : WebSocket) (user : Z)
  | ActStoreFaults (fs : list bool)
  | ActConnectionLost (websocket : WebSocket).

Definition perform (a : action) (w : World) : World :=
  match a with
  | ActCreate data => exec (create_processed_agent_data data) w
  | ActRead id => exec (read_processed_agent_data id) w
  | ActList => exec list_processed_agent_data w
  | ActUpdate id data => exec (update_processed_agent_data id data) w
  | ActDelete id => exec (delete_processed_agent_data id) w
  | ActConnect websocket user => exec (websocket_endpoint_connect websocket user) w
  | ActDisconnect websocket user => exec (websocket_endpoint_disconnect websocket user) w
  | ActStoreFaults fs => set_db_faults fs w
  | ActConnectionLost websocket => set_closed ({[websocket]} ∪ closed w) w
  end.

Definition run (l : list action) (w : World) : World :=
  fold_left (fun w a => perform a w) l w.

(** The actions of the WebSocket endpoint. *)
Definition is_websocket_action (a : action) : bool :=
  match a with
  | ActConnect _ _ | ActDisconnect _ _ => true
  | _ => false
  end.

(** * Properties *)

Lemma store_reliable_hd w : store_reliable w -> hd false (db_faults w) = false.
Proof. unfold store_reliable. destruct 1; simpl; auto. Qed.

Lemma store_reliable_hd2 w :
  store_reliable w -> hd false (tail (db_faults w)) = false.
Proof.
  unfold store_reliable. destruct 1 as [|b fs _ [|b' fs' ? ?]]; simpl; auto.
Qed.

Lemma store_reliable_hd3 w :
  store_reliable w -> hd false (tail (tail (db_faults w))) = false.
Proof.
  unfold store_reliable.
  destruct 1 as [|b fs _ [|b' fs' ? [|b'' fs'' ? ?]]]; simpl; auto.
Qed.

(** ** The loop body of create *)

(** The four ways through the loop body: the insert raises; the commit
    raises; the row is committed and no handle is registered under its user
    id; the row is committed and [json.dumps] raises on the result of the
    insert for the first registered handle. *)
Lemma create_item_spec item w w' r :
  create_item item w = (w', r) ->
  let id := id_seq w in
  let row := through_columns (insert_values item id) in
  let u := user_id (agent_data item) in
  subscriptions w' = subscriptions w /\ closed w' = closed w /\ tx w' = table w' /\
  ( (hd false (db_faults w) = true /\ r = inl DBAPIError /\
     table w' = table w /\ id_seq w' = id /\
     db_faults w' = tail (db_faults w) /\
     trace w' = trace w ++ [EvRollback])
  \/ (hd false (db_faults w) = false /\ hd false (tail (db_faults w)) = true /\
     r = inl DBAPIError /\
     table w' = table w /\ id_seq w' = id + 1 /\
     db_faults w' = tail (tail (db_faults w)) /\
     trace w' = trace w ++ [EvInsert row; EvRollback])
  \/ (hd false (db_faults w) = false /\ hd false (tail (db_faults w)) = false /\
     table w' = <[id := row]> (tx w) /\ id_seq w' = id + 1 /\
     db_faults w' = tail (tail (db_faults w)) /\
     ( (elements (registered u w) = [] /\ r = inr tt /\
        trace w' = trace w ++ [EvInsert row; EvCommit (<[id := row]> (tx w));
                               EvBroadcast u (PyCursorResult id)])
     \/ (elements (registered u w) <> [] /\ r = inl TypeError /\
        trace w' = trace w ++ [EvInsert row; EvCommit (<[id := row]> (tx w));
                               EvBroadcast u (PyCursorResult id); EvRollback]))) ).
Proof.
  intros Hrun id row u. subst id row u.
  unfold create_item, try_except, execute_insert, commit, rollback,
    send_data_to_subscribers, log, store_call, modify, get, mbind, M_bind, bind, ret in Hrun.
  simpl in Hrun. unfold registered.
  destruct (hd false (db_faults w)) eqn:F1; simpl in Hrun.
  { inversion Hrun; subst; clear Hrun; simpl. do 3 (split; [reflexivity|]).
    left. repeat split; auto. }
  destruct (hd false (tail (db_faults w))) eqn:F2; simpl in Hrun.
  { inversion Hrun; subst; clear Hrun; simpl. do 3 (split; [reflexivity|]).
    right; left. repeat split; auto. rewrite <- app_assoc. reflexivity. }
  destruct (subscriptions w !! user_id (agent_data item)) as [s|] eqn:Hs; simpl in Hrun.
  - destruct (elements s) as [|h l] eqn:Hl; simpl in Hrun;
      inversion Hrun; subst; clear Hrun; simpl; do 3 (split; [reflexivity|]);
      right; right; do 5 (split; [reflexivity|]); [left | right];
      (split; [congruence|]); (split; [reflexivity|]);
      rewrite <- !app_assoc; reflexivity.
  - inversion Hrun; subst; clear Hrun; simpl. do 3 (split; [reflexivity|]).
    right; right. do 5 (split; [reflexivity|]). left.
    split; [apply elements_empty|]. split; [reflexivity|].
    rewrite <- !app_assoc. reflexivity.
Qed.

(** ** The loop of create *)

Lemma for_each_app {A : Type} (l1 l2 : list A) (body : A -> M unit) (w : World) :
  for_each (l1 ++ l2) body w =
  match for_each l1 body w with
  | (w1, inr _) => for_each l2 body w1
  | (w1, inl e) => (w1, inl e)
  end.
Proof.
  revert w. induction l1 as [|a l1 IH]; intros w; simpl; [reflexivity|].
  unfold mbind, M_bind, bind. destruct (body a w) as [w1 [e|[]]]; [reflexivity|].
  apply IH.
Qed.

Lemma set_tx_id (w : World) : set_tx (tx w) w = w.
Proof. destruct w; reflexivity. Qed.

(** The handler is the loop run in a fresh session. *)
Lemma create_unfold data w :
  create_processed_agent_data data w =
  match for_each data create_item (set_tx (table w) w) with
  | (w', inr _) => (set_tx (table w') w', inr RespNone)
  | (w', inl e) => (set_tx (table w') w', inl e)
  end.
Proof.
  unfold create_processed_agent_data, with_session, mbind, M_bind, bind, ret.
  destruct (for_each data create_item (set_tx (table w) w)) as [w' [e|[]]]; reflexivity.
Qed.

(** Whatever happens to an item, the session is left with nothing pending. *)
Lemma create_item_clean item w w' r :
  create_item item w = (w', r) -> tx w' = table w'.
Proof. intros H. apply create_item_spec in H. tauto. Qed.

Lemma loop_clean data w w' r :
  tx w = table w ->
  for_each data create_item w = (w', r) -> tx w' = table w'.
Proof.
  revert w. induction data as [|a data IH]; intros w Hw; simpl.
  - unfold ret. intros [= <- _]. exact Hw.
  - unfold mbind, M_bind, bind.
    destruct (create_item a w) as [w1 [e|[]]] eqn:Ha.
    + intros [= <- _]. eapply create_item_clean; eauto.
    + apply IH. eapply create_item_clean; eauto.
Qed.

(** A batch whose items all succeed: the rows sit under consecutive ids, in
    list order, and every other row is as before. *)
Lemma loop_ok_spec data w w' :
  tx w = table w ->
  for_each data create_item w = (w', inr tt) ->
  id_seq w' = id_seq w + Z.of_nat (length data) /\
  subscriptions w' = subscriptions w /\ closed w' = closed w /\
  (forall (i : nat) item, data !! i = Some item ->
     table w' !! (id_seq w + Z.of_nat i)
     = Some (through_columns (insert_values item (id_seq w + Z.of_nat i)))) /\
  (forall j, j < id_seq w \/ id_seq w + Z.of_nat (length data) <= j ->
     table w' !! j = table w !! j).
Proof.
  revert w. induction data as [|a data IH]; intros w Hw; simpl.
  - unfold ret. intros [= <-]. rewrite Z.add_0_r. repeat split; auto.
    intros i item Hi. rewrite lookup_nil in Hi. discriminate.
  - unfold mbind, M_bind, bind.
    destruct (create_item a w) as [w1 [e|[]]] eqn:Ha; [discriminate|].
    intros Hrest.
    pose proof (create_item_spec _ _ _ _ Ha) as (Hsub & Hcl & Hclean & Hcases).
    destruct Hcases as [(_ & Hr & _)|[(_ & _ & Hr & _)|(_ & _ & Htab & Hseq & _)]];
      [discriminate Hr | discriminate Hr |].
    destruct (IH w1 Hclean Hrest) as (Hseq' & Hsub' & Hcl' & Hrows & Hframe).
    rewrite Hseq in *. rewrite Hw in Htab.
    split; [lia|]. split; [congruence|]. split; [congruence|]. split.
    + intros [|i] item Hi; simpl in Hi.
      * injection Hi as <-. rewrite Z.add_0_r.
        rewrite Hframe by lia. rewrite Htab. apply lookup_insert_eq.
      * specialize (Hrows i item Hi).
        replace (id_seq w + Z.of_nat (S i)) with (id_seq w + 1 + Z.of_nat i) by lia.
        exact Hrows.
    + intros j Hj. rewrite Hframe by lia. rewrite Htab.
      apply lookup_insert_ne. lia.
Qed.

Lemma create_item_frame item w w' r :
  tx w = table w ->
  create_item item w = (w', r) ->
  id_seq w <= id_seq w' /\
  forall j, j <> id_seq w -> table w' !! j = table w !! j.
Proof.
  intros Hw H. apply create_item_spec in H. simpl in H.
  destruct H as (_ & _ & _ & [H|[H|H]]).
  - destruct H as (_ & _ & -> & -> & _). split; [lia | reflexivity].
  - destruct H as (_ & _ & _ & -> & -> & _). split; [lia | reflexivity].
  - destruct H as (_ & _ & -> & -> & _). rewrite Hw. split; [lia|].
    intros j Hj. apply lookup_insert_ne. congruence.
Qed.

Lemma create_ok_spec data w w' resp :
  create_processed_agent_data data w = (w', inr resp) ->
  resp = RespNone /\
  id_seq w' = id_seq w + Z.of_nat (length data) /\
  subscriptions w' = subscriptions w /\ closed w' = closed w /\
  (forall (i : nat) item, data !! i = Some item ->
     table w' !! (id_seq w + Z.of_nat i)
     = Some (through_columns (insert_values item (id_seq w + Z.of_nat i)))) /\
  (forall j, j < id_seq w \/ id_seq w + Z.of_nat (length data) <= j ->
     table w' !! j = table w !! j).
Proof.
  rewrite create_unfold.
  destruct (for_each data create_item (set_tx (table w) w)) as [w1 [e|[]]] eqn:Hl;
    intros [= <- <-].
  apply loop_ok_spec in Hl; [|reflexivity].
  split; [reflexivity|]. exact Hl.
Qed.

(** The items that succeed leave the world in which the rest of the batch
    runs: a batch is its items handled one after the other. *)
Lemma create_app_ok before rest w w1 resp :
  create_processed_agent_data before w = (w1, inr resp) ->
  create_processed_agent_data (before ++ rest) w = create_processed_agent_data rest w1.
Proof.
  rewrite !create_unfold, for_each_app.
  destruct (for_each before create_item (set_tx (table w) w)) as [w0 [e|[]]] eqn:Hl;
    intros [= <- _].
  apply loop_clean in Hl; [|reflexivity].
  simpl. rewrite <- Hl, set_tx_id, set_tx_id. reflexivity.
Qed.

(** Once an item has raised, the loop is left: what follows it in the batch
    plays no part. *)
Lemma create_cons_fail item rest w w2 e :
  create_processed_agent_data [item] w = (w2, inl e) ->
  create_processed_agent_data (item :: rest) w = (w2, inl e).
Proof.
  rewrite !create_unfold. simpl. unfold mbind, M_bind, bind.
  destruct (create_item item (set_tx (table w) w)) as [w0 [e0|[]]]; [auto|].
  unfold ret. discriminate.
Qed.

Lemma create_single_frame item w w' r :
  create_processed_agent_data [item] w = (w', r) ->
  forall j, j <> id_seq w -> table w' !! j = table w !! j.
Proof.
  rewrite create_unfold. simpl. unfold mbind, M_bind, bind.
  destruct (create_item item (set_tx (table w) w)) as [w0 [e0|[]]] eqn:Hi;
    intros [= <- _] j Hj;
    apply create_item_frame in Hi; try reflexivity;
    destruct Hi as [_ Hi]; apply (Hi j Hj).
Qed.

(** C10: in a batch, the items are handled in list order, each one committed
    before the next is attempted: the items before item k, all successful,
    leave their rows under consecutive ids in the world [w1], and whatever
    follows them in the batch is handled from [w1] as a request of its own
    would be. When item k then raises, the batch ends with that error in the
    world item k left, whatever follows it in the batch, and the rows of the
    items before k are still stored. *)
Theorem create_batch_partial_success before item after w w1 w2 resp e :
  create_processed_agent_data before w = (w1, inr resp) ->
  create_processed_agent_data [item] w1 = (w2, inl e) ->
  (forall rest,
     create_processed_agent_data (before ++ rest) w = create_processed_agent_data rest w1) /\
  create_processed_agent_data (before ++ item :: after) w = (w2, inl e) /\
  forall (i : nat) it, before !! i = Some it ->
    table w1 !! (id_seq w + Z.of_nat i) = Some (through_columns (insert_values it (id_seq w + Z.of_nat i))) /\
    table w2 !! (id_seq w + Z.of_nat i) = Some (through_columns (insert_values it (id_seq w + Z.of_nat i))).
Proof.
  intros Hbefore Hitem. split; [|split].
  - intros rest. apply (create_app_ok _ _ _ _ _ Hbefore).
  - rewrite (create_app_ok _ _ _ _ _ Hbefore). apply create_cons_fail, Hitem.
  - intros i it Hi.
    destruct (create_ok_spec _ _ _ _ Hbefore) as (_ & Hseq & _ & _ & Hrows & _).
    pose proof (Hrows i it Hi) as Hrow. split; [exact Hrow|].
    rewrite (create_single_frame _ _ _ _ Hitem); [exact Hrow|].
    apply lookup_lt_Some in Hi. lia.
Qed.

(** ** Read, update and delete *)

Lemma read_spec id w :
  hd false (db_faults w) = false ->
  exists w',
    read_processed_agent_data id w =
      (w', match table w !! id with
           | Some row => inr (RespRecord (from_row row))
           | None => inl (http_404 "ProcessedAgentData not found")
           end) /\
    table w' = table w /\ id_seq w' = id_seq w /\
    subscriptions w' = subscriptions w /\ trace w' = trace w.
Proof.
  intros F.
  unfold read_processed_agent_data, with_session, execute_select_one, store_call,
    get, mbind, M_bind, bind, ret, raise.
  simpl. rewrite F. simpl.
  destruct (table w !! id); eexists; (split; [reflexivity|]); simpl; auto.
Qed.

Lemma update_missing_spec id data w :
  table w !! id = None ->
  hd false (db_faults w) = false ->
  hd false (tail (db_faults w)) = false ->
  exists w',
    update_processed_agent_data id data w =
      (w', inl (http_404 "ProcessedAgentData not found")) /\
    table w' = table w /\ id_seq w' = id_seq w.
Proof.
  intros Hid F1 F2.
  unfold update_processed_agent_data, with_session, execute_update, commit, log,
    store_call, modify, get, mbind, M_bind, bind, ret, raise.
  simpl. rewrite F1. simpl. rewrite Hid. simpl. rewrite F2. simpl.
  eexists. split; [reflexivity|]. simpl. auto.
Qed.

Lemma delete_spec id w :
  hd false (db_faults w) = false ->
  hd false (tail (db_faults w)) = false ->
  hd false (tail (tail (db_faults w))) = false ->
  exists w',
    delete_processed_agent_data id w =
      (w', match table w !! id with
           | Some row => inr (RespRecord (from_row row))
           | None => inl (http_404 "ProcessedAgentData not found")
           end) /\
    table w' = delete id (table w) /\ id_seq w' = id_seq w.
Proof.
  intros F1 F2 F3.
  unfold delete_processed_agent_data, with_session, execute_select_one, execute_delete,
    commit, log, store_call, modify, get, mbind, M_bind, bind, ret, raise.
  simpl. rewrite F1. simpl.
  destruct (table w !! id) eqn:Hid; simpl.
  - rewrite F2. simpl. rewrite F3. simpl.
    eexists. split; [reflexivity|]. simpl. auto.
  - eexists. split; [reflexivity|]. simpl. split; [|reflexivity].
    symmetry. apply delete_id. exact Hid.
Qed.

(** C7: on an id under which no row is stored (never created, or deleted),
    read, update and delete each raise the 404 [HTTPException], and the
    table and the id sequence are as before. *)
Theorem missing_id_not_found id data w :
  table w !! id = None ->
  store_reliable w ->
  (exists w', read_processed_agent_data id w =
                (w', inl (HTTPException 404 "ProcessedAgentData not found")) /\
              table w' = table w /\ id_seq w' = id_seq w) /\
  (exists w', update_processed_agent_data id data w =
                (w', inl (HTTPException 404 "ProcessedAgentData not found")) /\
              table w' = table w /\ id_seq w' = id_seq w) /\
  (exists w', delete_processed_agent_data id w =
                (w', inl (HTTPException 404 "ProcessedAgentData not found")) /\
              table w' = table w /\ id_seq w' = id_seq w).
Proof.
  intros Hid Hrel.
  pose proof (store_reliable_hd _ Hrel) as F1.
  pose proof (store_reliable_hd2 _ Hrel) as F2.
  pose proof (store_reliable_hd3 _ Hrel) as F3.
  split; [|split].
  - destruct (read_spec id w F1) as (w' & Hr & Ht & Hs & _).
    rewrite Hid in Hr. exists w'. auto.
  - destruct (update_missing_spec id data w Hid F1 F2) as (w' & Hr & Ht & Hs).
    exists w'. auto.
  - destruct (delete_spec id w F1 F2 F3) as (w' & Hr & Ht & Hs).
    rewrite Hid in Hr. exists w'. split; [exact Hr|]. split; [|exact Hs].
    rewrite Ht. apply delete_id. exact Hid.
Qed.

(** C8: deleting the id of a stored row returns that row as it was, column
    by column, removes it, and leaves every other row as it was. *)
Theorem delete_removes_exactly_one id row w :
  table w !! id = Some row ->
  store_reliable w ->
  exists w' deleted,
    delete_processed_agent_data id w = (w', inr (RespRecord deleted)) /\
    (rec_id deleted = col_id row /\
     rec_road_state deleted = col_road_state row /\
     rec_user_id deleted = col_user_id row /\
     rec_x deleted = col_x row /\
     rec_y deleted = col_y row /\
     rec_z deleted = col_z row /\
     rec_latitude deleted = col_latitude row /\
     rec_longitude deleted = col_longitude row /\
     rec_timestamp deleted = col_timestamp row) /\
    table w' !! id = None /\
    (forall j, j <> id -> table w' !! j = table w !! j).
Proof.
  intros Hid Hrel.
  destruct (delete_spec id w (store_reliable_hd _ Hrel) (store_reliable_hd2 _ Hrel)
              (store_reliable_hd3 _ Hrel)) as (w' & Hr & Ht & _).
  rewrite Hid in Hr. exists w', (from_row row). split; [exact Hr|].
  split; [cbn; repeat split|]. rewrite Ht. split.
  - apply lookup_delete_eq.
  - intros j Hj. apply lookup_delete_ne. congruence.
Qed.

(** ** A request that creates one record *)

Lemma create_single_unfold item w :
  create_processed_agent_data [item] w =
  match create_item item (set_tx (table w) w) with
  | (w', inr _) => (w', inr RespNone)
  | (w', inl e) => (w', inl e)
  end.
Proof.
  rewrite create_unfold. simpl. unfold mbind, M_bind, bind, ret.
  destruct (create_item item (set_tx (table w) w)) as [w' [e|[]]] eqn:Hi;
    apply create_item_clean in Hi; rewrite <- Hi, set_tx_id; reflexivity.
Qed.

(** C4 (as the code has it): a record submitted while the store answers and
    no handle is registered under its user id is stored under the next id
    of the sequence, and the handler returns [None]: the stored record is
    not handed back to the caller. *)
Theorem create_stores_and_returns_none item w :
  store_reliable w ->
  elements (registered (user_id (agent_data item)) w) = [] ->
  exists w',
    create_processed_agent_data [item] w = (w', inr RespNone) /\
    table w' !! id_seq w = Some (through_columns (insert_values item (id_seq w))) /\
    col_id (through_columns (insert_values item (id_seq w))) = id_seq w /\
    id_seq w' = id_seq w + 1.
Proof.
  intros Hrel Hnone. rewrite create_single_unfold.
  destruct (create_item item (set_tx (table w) w)) as [w' r] eqn:Hi.
  apply create_item_spec in Hi. simpl in Hi.
  rewrite (store_reliable_hd _ Hrel), (store_reliable_hd2 _ Hrel) in Hi.
  destruct Hi as (_ & _ & _ & [H|[H|H]]).
  - destruct H as (H & _). discriminate.
  - destruct H as (_ & H & _). discriminate.
  - destruct H as (_ & _ & Htab & Hseq & _ & [(_ & -> & _)|(Hne & _)]).
    + exists w'. split; [reflexivity|]. split; [|split; [reflexivity|exact Hseq]].
      rewrite Htab. apply lookup_insert_eq.
    + exfalso. apply Hne. exact Hnone.
Qed.


(** C9: in a request that creates one record, whatever is pushed towards the
    subscribers (the call of [send_data_to_subscribers], and any frame it
    writes) comes after the commit that made the row of that record durable. *)
Theorem commit_before_broadcast item w w' r pre e post :
  create_processed_agent_data [item] w = (w', r) ->
  trace w' = trace w ++ pre ++ e :: post ->
  is_push e = true ->
  exists before t after,
    pre = before ++ EvCommit t :: after /\
    t !! id_seq w = Some (through_columns (insert_values item (id_seq w))) /\
    table w' !! id_seq w = Some (through_columns (insert_values item (id_seq w))) /\
    e = EvBroadcast (user_id (agent_data item)) (PyCursorResult (id_seq w)).
Proof.
  rewrite create_single_unfold.
  destruct (create_item item (set_tx (table w) w)) as [w0 r0] eqn:Hi.
  intros Hrun Htrace Hpush.
  assert (w0 = w') as -> by (destruct r0; congruence). clear Hrun.
  apply create_item_spec in Hi. simpl in Hi.
  destruct Hi as (_ & _ & _ & Hcases).
  set (row := through_columns (insert_values item (id_seq w))) in *.
  assert (Hshape :
    forall evs, pre ++ e :: post = evs ->
      (evs = [EvRollback] \/ evs = [EvInsert row; EvRollback]) -> False).
  { intros evs <- [H|H].
    - destruct pre as [|? [|? ?]]; simpl in H; inversion H; subst; discriminate.
    - destruct pre as [|? [|? [|? ?]]]; simpl in H; inversion H; subst; discriminate. }
  destruct Hcases as [H|[H|H]].
  - destruct H as (_ & _ & _ & _ & _ & Ht). exfalso.
    rewrite Ht in Htrace. apply app_inv_head in Htrace.
    eapply Hshape; [symmetry; exact Htrace | auto].
  - destruct H as (_ & _ & _ & _ & _ & _ & Ht). exfalso.
    rewrite Ht in Htrace. apply app_inv_head in Htrace.
    eapply Hshape; [symmetry; exact Htrace | auto].
  - destruct H as (_ & _ & Htab & _ & _ & Hcase).
    assert (Hrow : table w' !! id_seq w = Some row).
    { rewrite Htab. apply lookup_insert_eq. }
    assert (Hpre : pre = [EvInsert row; EvCommit (<[id_seq w := row]> (table w))] /\
                   e = EvBroadcast (user_id (agent_data item)) (PyCursorResult (id_seq w))).
    { destruct Hcase as [(_ & _ & Ht)|(_ & _ & Ht)];
        rewrite Ht in Htrace; apply app_inv_head in Htrace;
        destruct pre as [|? [|? [|? [|? [|? ?]]]]]; simpl in Htrace;
        inversion Htrace; subst; try discriminate; auto. }
    destruct Hpre as [-> ->].
    exists [EvInsert row], (<[id_seq w := row]> (table w)), [].
    split; [reflexivity|]. split; [apply lookup_insert_eq|]. auto.
Qed.

(** ** Broadcast *)

Lemma send_data_to_subscribers_unfold u data w :
  send_data_to_subscribers u data w =
  let w0 := set_trace (trace w ++ [EvBroadcast u data]) w in
  match subscriptions w !! u with
  | Some s => for_each (elements s) (send_to_one data) w0
  | None => (w0, inr tt)
  end.
Proof.
  unfold send_data_to_subscribers, log, modify, get, mbind, M_bind, bind, ret. simpl.
  destruct (subscriptions w !! u); reflexivity.
Qed.

Lemma send_to_one_unfold data h w :
  send_to_one data h w =
  if json_serializable data
  then if decide (h ∈ closed w)
       then (w, inl (WebSocketSendError h))
       else (set_trace (trace w ++ [EvSend h (Dumps data)]) w, inr tt)
  else (w, inl TypeError).
Proof.
  unfold send_to_one, json_dumps, send_json, log, modify, get, mbind, M_bind, bind, ret, raise.
  destruct (json_serializable data); simpl; [|reflexivity].
  destruct (decide (h ∈ closed w)); reflexivity.
Qed.

(** A broadcast writes frames and nothing else. *)
Lemma send_loop_frame l data w w' r :
  for_each l (send_to_one data) w = (w', r) ->
  table w' = table w /\ tx w' = tx w /\ id_seq w' = id_seq w /\
  db_faults w' = db_faults w /\ subscriptions w' = subscriptions w /\
  closed w' = closed w.
Proof.
  revert w. induction l as [|h l IH]; intros w; simpl.
  - unfold ret. intros [= <- _]. repeat split.
  - unfold mbind, M_bind, bind. rewrite send_to_one_unfold.
    destruct (json_serializable data).
    + destruct (decide (h ∈ closed w)).
      * intros [= <- _]. repeat split.
      * intros H. apply IH in H. simpl in H. exact H.
    + intros [= <- _]. repeat split.
Qed.

Lemma send_data_to_subscribers_frame u data w w' r :
  send_data_to_subscribers u data w = (w', r) ->
  table w' = table w /\ tx w' = tx w /\ id_seq w' = id_seq w /\
  db_faults w' = db_faults w /\ subscriptions w' = subscriptions w /\
  closed w' = closed w.
Proof.
  rewrite send_data_to_subscribers_unfold. simpl.
  destruct (subscriptions w !! u).
  - intros H. apply send_loop_frame in H. simpl in H. exact H.
  - intros [= <- _]. repeat split.
Qed.

Lemma send_loop_stops data before failed after w :
  json_serializable data = true ->
  (forall h, h ∈ before -> h ∉ closed w) ->
  failed ∈ closed w ->
  for_each (before ++ failed :: after) (send_to_one data) w =
  (set_trace (trace w ++ map (fun h => EvSend h (Dumps data)) before) w,
   inl (WebSocketSendError failed)).
Proof.
  intros Hser. revert w. induction before as [|h before IH]; intros w Hopen Hfailed; simpl.
  - unfold mbind, M_bind, bind. rewrite send_to_one_unfold, Hser.
    rewrite decide_True by exact Hfailed.
    rewrite app_nil_r. destruct w; reflexivity.
  - unfold mbind, M_bind, bind. rewrite send_to_one_unfold, Hser.
    rewrite decide_False by (apply Hopen; left).
    rewrite IH; simpl.
    + rewrite <- app_assoc. reflexivity.
    + intros h' Hh'. apply Hopen. right. exact Hh'.
    + exact Hfailed.
Qed.

Lemma sent_to_app h tr1 tr2 :
  sent_to h (tr1 ++ tr2) = sent_to h tr1 ++ sent_to h tr2.
Proof.
  induction tr1 as [|e tr1 IH]; simpl; [reflexivity|].
  destruct e; auto. destruct (decide (websocket = h)); simpl; congruence.
Qed.

Lemma sent_to_others h data l :
  h ∉ l -> sent_to h (map (fun h' => EvSend h' (Dumps data)) l) = [].
Proof.
  induction l as [|h' l IH]; simpl; intros Hh; [reflexivity|].
  rewrite decide_False.
  - apply IH. intros Hin. apply Hh. right. exact Hin.
  - intros ->. apply Hh. left.
Qed.

Lemma send_loop_all_open data l w :
  json_serializable data = true ->
  (forall h, h ∈ l -> h ∉ closed w) ->
  for_each l (send_to_one data) w =
  (set_trace (trace w ++ map (fun h => EvSend h (Dumps data)) l) w, inr tt).
Proof.
  intros Hser. revert w. induction l as [|h l IH]; intros w Hopen; simpl.
  - rewrite app_nil_r. destruct w; reflexivity.
  - unfold mbind, M_bind, bind. rewrite send_to_one_unfold, Hser.
    rewrite decide_False by (apply Hopen; left).
    rewrite IH; simpl.
    + rewrite <- app_assoc. reflexivity.
    + intros h' Hh'. apply Hopen. right. exact Hh'.
Qed.

Lemma sent_to_each h data l :
  NoDup l ->
  sent_to h (map (fun h' => EvSend h' (Dumps data)) l) =
  if decide (h ∈ l) then [Dumps data] else [].
Proof.
  induction 1 as [|h' l Hnotin Hnd IH]; simpl.
  - destruct (decide (h ∈ [])) as [Hin|_]; [|reflexivity].
    exfalso. exact (not_elem_of_nil _ Hin).
  - destruct (decide (h' = h)) as [->|Hne].
    + rewrite (sent_to_others _ _ _ Hnotin).
      rewrite decide_True by left. reflexivity.
    + rewrite IH. destruct (decide (h ∈ l)) as [Hin|Hout].
      * rewrite decide_True by (right; exact Hin). reflexivity.
      * rewrite decide_False; [reflexivity|].
        intros Hin. apply elem_of_cons in Hin.
        destruct Hin as [Heq|Hin]; [exact (Hne (eq_sym Heq)) | exact (Hout Hin)].
Qed.

(** The routing by user id: when the payload can be encoded and no send
    raises, a broadcast writes the payload once to each handle registered
    under the user id and to no other handle. *)
Lemma broadcast_reaches_registered u data w :
  json_serializable data = true ->
  (forall h, h ∈ registered u w -> h ∉ closed w) ->
  exists w',
    send_data_to_subscribers u data w = (w', inr tt) /\
    subscriptions w' = subscriptions w /\
    forall h, sent_to h (trace w') =
              sent_to h (trace w) ++ if decide (h ∈ registered u w) then [Dumps data] else [].
Proof.
  intros Hser Hopen. rewrite send_data_to_subscribers_unfold. cbv zeta.
  unfold registered in *.
  destruct (subscriptions w !! u) as [s|] eqn:Hs; simpl in *.
  - rewrite send_loop_all_open; [|exact Hser|].
    + eexists. split; [reflexivity|]. split; [reflexivity|]. intros h. simpl.
      rewrite !sent_to_app. simpl. rewrite app_nil_r.
      rewrite (sent_to_each _ _ _ (NoDup_elements s)).
      destruct (decide (h ∈ elements s)) as [Hin|Hout].
      * rewrite decide_True by (apply elem_of_elements; exact Hin). reflexivity.
      * rewrite decide_False; [reflexivity|].
        intros Hin. apply Hout. apply elem_of_elements. exact Hin.
    + intros h Hh. simpl. apply Hopen. apply elem_of_elements. exact Hh.
  - eexists. split; [reflexivity|]. split; [reflexivity|]. intros h. simpl.
    rewrite sent_to_app. simpl.
    rewrite decide_False by apply not_elem_of_empty. reflexivity.
Qed.

(** C2 (as the code has it): a send that raises ends the broadcast. The
    handles iterated before the failing one have been sent the payload, the
    failing handle and those after it are sent nothing, the exception leaves
    [send_data_to_subscribers], and the registry is as before, the failed
    handle included. *)
Theorem broadcast_stops_at_failed_handle u data w s before failed after :
  subscriptions w !! u = Some s ->
  elements s = before ++ failed :: after ->
  json_serializable data = true ->
  (forall h, h ∈ before -> h ∉ closed w) ->
  failed ∈ closed w ->
  exists w',
    send_data_to_subscribers u data w = (w', inl (WebSocketSendError failed)) /\
    trace w' = trace w ++ EvBroadcast u data :: map (fun h => EvSend h (Dumps data)) before /\
    (forall h, h ∈ failed :: after -> sent_to h (trace w') = sent_to h (trace w)) /\
    subscriptions w' = subscriptions w /\
    failed ∈ registered u w'.
Proof.
  intros Hs Hel Hser Hopen Hfailed.
  rewrite send_data_to_subscribers_unfold. cbv zeta. rewrite Hs. cbv beta iota.
  rewrite Hel.
  rewrite send_loop_stops; [|exact Hser|exact Hopen|exact Hfailed].
  eexists. split; [reflexivity|]. simpl.
  assert (Htr : (trace w ++ [EvBroadcast u data]) ++
                  map (fun h => EvSend h (Dumps data)) before =
                trace w ++ EvBroadcast u data :: map (fun h => EvSend h (Dumps data)) before).
  { rewrite <- app_assoc. reflexivity. }
  rewrite Htr. split; [reflexivity|]. split; [|split; [reflexivity|]].
  - intros h Hh.
    assert (Hnot : h ∉ before).
    { pose proof (NoDup_elements s) as Hnd. rewrite Hel in Hnd.
      apply NoDup_app in Hnd. destruct Hnd as (_ & Hdisj & _).
      intros Hin. exact (Hdisj h Hin Hh). }
    rewrite sent_to_app. simpl. rewrite (sent_to_others _ _ _ Hnot).
    apply app_nil_r.
  - unfold registered. simpl. rewrite Hs. simpl.
    apply elem_of_elements. rewrite Hel. apply elem_of_app. right. left.
Qed.

(** ** Create and the broadcast *)

Lemma persist_spec item w w1 res :
  insert_and_commit item w = (w1, inr res) ->
  res = PyCursorResult (id_seq w) /\
  table w1 = <[id_seq w := through_columns (insert_values item (id_seq w))]> (tx w).
Proof.
  unfold insert_and_commit, execute_insert, commit, log, store_call, modify, get,
    mbind, M_bind, bind, ret.
  simpl. destruct (hd false (db_faults w)); simpl; [discriminate|].
  destruct (hd false (tail (db_faults w))); simpl; [discriminate|].
  intros [= <- <-]. split; reflexivity.
Qed.

(** C3 (as the code has it): once the row is committed, an exception raised
    by the broadcast is raised again, after a rollback, to the caller of
    create; the committed row stays in the table. *)
Theorem broadcast_failure_reaches_caller item w w1 res w2 e :
  insert_and_commit item (set_tx (table w) w) = (w1, inr res) ->
  send_data_to_subscribers (user_id (agent_data item)) res w1 = (w2, inl e) ->
  exists w',
    create_processed_agent_data [item] w = (w', inl e) /\
    table w' = table w1 /\
    table w' !! id_seq w = Some (through_columns (insert_values item (id_seq w))).
Proof.
  intros Hpersist Hsend.
  pose proof (persist_spec _ _ _ _ Hpersist) as [_ Htab]. simpl in Htab.
  pose proof (send_data_to_subscribers_frame _ _ _ _ _ Hsend) as (Ht2 & _).
  rewrite create_single_unfold.
  unfold create_item, try_except.
  unfold insert_and_commit, mbind, M_bind, bind in Hpersist |- *.
  destruct (execute_insert (insert_values item) (set_tx (table w) w)) as [wa [ea|ra]];
    [discriminate|].
  destruct (commit wa) as [wb [eb|[]]]; [discriminate|].
  unfold ret in Hpersist. injection Hpersist as -> ->.
  rewrite Hsend. unfold rollback, log, modify, raise, mbind, M_bind, bind. simpl.
  eexists. split; [reflexivity|]. simpl. rewrite Ht2. split; [reflexivity|].
  rewrite Htab. apply lookup_insert_eq.
Qed.

(** A create request writes to no connection: what it passes to
    [json.dumps] is the [CursorResult] of the insert. *)
Lemma create_item_sends_nothing item w w' r h :
  create_item item w = (w', r) -> sent_to h (trace w') = sent_to h (trace w).
Proof.
  intros H. apply create_item_spec in H. simpl in H.
  destruct H as (_ & _ & _ & [H|[H|H]]).
  - destruct H as (_ & _ & _ & _ & _ & ->). rewrite sent_to_app. apply app_nil_r.
  - destruct H as (_ & _ & _ & _ & _ & _ & ->). rewrite sent_to_app. apply app_nil_r.
  - destruct H as (_ & _ & _ & _ & _ & [(_ & _ & ->)|(_ & _ & ->)]);
      rewrite sent_to_app; apply app_nil_r.
Qed.

Lemma create_sends_nothing data w h :
  sent_to h (trace (exec (create_processed_agent_data data) w)) = sent_to h (trace w).
Proof.
  unfold exec. rewrite create_unfold.
  assert (Hloop : forall w0 w' r,
            for_each data create_item w0 = (w', r) ->
            sent_to h (trace w') = sent_to h (trace w0)).
  { induction data as [|a data IH]; intros w0 w' r; simpl.
    - unfold ret. intros [= <- _]. reflexivity.
    - unfold mbind, M_bind, bind.
      destruct (create_item a w0) as [w1 [e|[]]] eqn:Ha.
      + intros [= <- _]. eapply create_item_sends_nothing; eauto.
      + intros H. rewrite (IH _ _ _ H). eapply create_item_sends_nothing; eauto. }
  destruct (for_each data create_item (set_tx (table w) w)) as [w' [e|[]]] eqn:Hl;
    simpl; apply (Hloop _ _ _ Hl).
Qed.

(** ** Validation *)

Ltac case_validation :=
  match goal with
  | |- context [field ?k ?o] => destruct (field k o); simpl in *
  | |- context [validate_str ?o] => destruct (validate_str o); simpl in *
  | |- context [validate_int ?o] => destruct (validate_int o); simpl in *
  | |- context [validate_float ?o] => destruct (validate_float o); simpl in *
  | |- context [parse_datetime ?o] => destruct (parse_datetime o); simpl in *
  end.

Lemma validate_ProcessedAgentData_None v :
  constraint_violated v -> validate_ProcessedAgentData v = None.
Proof.
  unfold constraint_violated, validate_ProcessedAgentData, validate_AgentData,
    validate_AccelerometerData, validate_GpsData. simpl.
  intros H.
  repeat (case_validation; try reflexivity).
  exfalso. intuition discriminate.
Qed.

Lemma validate_ProcessedAgentData_Some v :
  ~ constraint_violated v -> is_Some (validate_ProcessedAgentData v).
Proof.
  unfold constraint_violated, validate_ProcessedAgentData, validate_AgentData,
    validate_AccelerometerData, validate_GpsData. simpl.
  intros H.
  repeat (case_validation; try (exfalso; apply H; auto 10; fail)).
  eexists; reflexivity.
Qed.

(** The type [str] of [road_state] allows the empty string. *)
Lemma empty_road_state_accepted a ad :
  validate_AgentData a = Some ad ->
  validate_ProcessedAgentData (PyDict [("road_state", PyStr ""); ("agent_data", a)])
  = Some {| road_state := ""; agent_data := ad |}.
Proof.
  intros H. unfold validate_ProcessedAgentData. simpl. rewrite H. reflexivity.
Qed.

(** C5 (as the code has it): a body with an item in which [road_state] is
    not a string, [user_id] not an integer, one of [x], [y], [z],
    [latitude], [longitude] not a finite number, or [timestamp] not a
    date-time, is rejected before the handler runs: the world is untouched,
    so no row is written and nothing is broadcast. *)
Theorem invalid_item_rejected_before_persistence items v w :
  v ∈ items ->
  constraint_violated v ->
  post_processed_agent_data (PyList items) w = (w, inl RequestValidationError).
Proof.
  intros Hin Hbad. unfold post_processed_agent_data, validate_body.
  assert (Hnone : mapM validate_ProcessedAgentData items = None).
  { apply mapM_None. apply Exists_exists. exists v. split; [exact Hin|].
    apply validate_ProcessedAgentData_None, Hbad. }
  rewrite Hnone. reflexivity.
Qed.

(** * Further properties *)

(** ** The WebSocket endpoint *)

Lemma websocket_endpoint_connect_unfold websocket u w :
  websocket_endpoint_connect websocket u w =
  (set_subscriptions (<[u := {[websocket]} ∪ registered u w]> (subscriptions w)) w, inr tt).
Proof. reflexivity. Qed.

Lemma websocket_endpoint_disconnect_unfold websocket u w :
  websocket_endpoint_disconnect websocket u w =
  let w1 := set_closed ({[websocket]} ∪ closed w) w in
  match subscriptions w !! u with
  | Some s =>
      if decide (websocket ∈ s)
      then (set_subscriptions (<[u := s ∖ {[websocket]}]> (subscriptions w)) w1, inr tt)
      else (w1, inl KeyError)
  | None => (w1, inl KeyError)
  end.
Proof.
  unfold websocket_endpoint_disconnect, modify, get, raise, mbind, M_bind, bind. simpl.
  destruct (subscriptions w !! u) as [s|]; [|reflexivity].
  destruct (decide (websocket ∈ s)); reflexivity.
Qed.

(** X1: a connection that subscribes under a user id and then disconnects
    is registered in between, its disconnect never raises, and afterwards
    the registry holds under that user id the handles it held before, this
    one apart; the set of the user id stays in the registry, be it empty.
    The other user ids, the table, the id sequence and the trace are as
    before. *)
Theorem connect_then_disconnect websocket u w :
  let w1 := exec (websocket_endpoint_connect websocket u) w in
  websocket ∈ registered u w1 /\
  exists w2,
    websocket_endpoint_disconnect websocket u w1 = (w2, inr tt) /\
    subscriptions w2 !! u = Some (registered u w ∖ {[websocket]}) /\
    (forall u', u' <> u -> subscriptions w2 !! u' = subscriptions w !! u') /\
    table w2 = table w /\ id_seq w2 = id_seq w /\ trace w2 = trace w.
Proof.
  intros w1. subst w1. unfold exec. rewrite websocket_endpoint_connect_unfold.
  cbn [fst]. split.
  - unfold registered at 1. cbn [subscriptions set_subscriptions].
    rewrite lookup_insert_eq. cbn. apply elem_of_union_l, elem_of_singleton. reflexivity.
  - rewrite websocket_endpoint_disconnect_unfold. cbv zeta.
    cbn [subscriptions set_subscriptions]. rewrite lookup_insert_eq.
    rewrite decide_True by (apply elem_of_union_l, elem_of_singleton; reflexivity).
    eexists. split; [reflexivity|].
    cbn [subscriptions set_subscriptions set_closed table id_seq trace].
    split; [|split; [|auto]].
    + rewrite lookup_insert_eq. f_equal. apply set_eq. intros h.
      rewrite !elem_of_difference, elem_of_union, elem_of_singleton. tauto.
    + intros u' Hu'. rewrite !lookup_insert_ne by congruence. reflexivity.
Qed.

(** X2: once a handle has disconnected, a broadcast to its former user id
    passes it by: with a payload that can be encoded and the other handles
    of the user id open, the broadcast raises nothing, writes nothing to the
    handle that left, and writes the payload once to each of the others. *)
Theorem disconnected_handle_is_passed_by websocket u data w :
  websocket ∈ registered u w ->
  json_serializable data = true ->
  (forall h, h ∈ registered u w -> h <> websocket -> h ∉ closed w) ->
  exists w1 w2,
    websocket_endpoint_disconnect websocket u w = (w1, inr tt) /\
    send_data_to_subscribers u data w1 = (w2, inr tt) /\
    sent_to websocket (trace w2) = sent_to websocket (trace w) /\
    forall h, h ∈ registered u w -> h <> websocket ->
      sent_to h (trace w2) = sent_to h (trace w) ++ [Dumps data].
Proof.
  intros Hin Hser Hopen.
  rewrite websocket_endpoint_disconnect_unfold. cbv zeta.
  unfold registered in Hin, Hopen.
  destruct (subscriptions w !! u) as [s|] eqn:Hs; cbn in Hin, Hopen;
    [|exfalso; exact (not_elem_of_empty _ Hin)].
  rewrite decide_True by exact Hin.
  set (w1 := set_subscriptions _ _).
  assert (Hreg : registered u w1 = s ∖ {[websocket]}).
  { unfold registered, w1. cbn [subscriptions set_subscriptions].
    rewrite lookup_insert_eq. reflexivity. }
  destruct (broadcast_reaches_registered u data w1 Hser) as (w2 & Hrun & _ & Hsent).
  { rewrite Hreg. intros h Hh. unfold w1. cbn [closed set_subscriptions set_closed].
    apply elem_of_difference in Hh. destruct Hh as [Hhs Hne].
    rewrite elem_of_singleton in Hne.
    specialize (Hopen h Hhs Hne).
    intros Hc. apply elem_of_union in Hc. destruct Hc as [Hc|Hc]; [|exact (Hopen Hc)].
    apply elem_of_singleton in Hc. exact (Hne Hc). }
  exists w1, w2. split; [reflexivity|]. split; [exact Hrun|]. split.
  - rewrite Hsent, Hreg. rewrite decide_False; [apply app_nil_r|].
    intros Hc. apply elem_of_difference in Hc. destruct Hc as [_ Hc].
    apply Hc. apply elem_of_singleton. reflexivity.
  - intros h Hh Hne. unfold registered in Hh. rewrite Hs in Hh. cbn in Hh.
    rewrite Hsent, Hreg. rewrite decide_True; [reflexivity|].
    apply elem_of_difference. split; [exact Hh|].
    rewrite elem_of_singleton. exact Hne.
Qed.

(** ** Broadcast *)

(** X3: a broadcast to a user id under which no handle is registered (no
    set, or an empty one) raises nothing and writes no frame, whatever the
    payload, one that [json.dumps] cannot encode included. *)
Theorem broadcast_without_subscribers u data w :
  registered u w = ∅ ->
  send_data_to_subscribers u data w
  = (set_trace (trace w ++ [EvBroadcast u data]) w, inr tt).
Proof.
  intros Hnone. rewrite send_data_to_subscribers_unfold. cbv zeta.
  unfold registered in Hnone.
  destruct (subscriptions w !! u) as [s|]; cbn in Hnone; [|reflexivity].
  subst s. rewrite elements_empty. reflexivity.
Qed.

(** X4: when the payload can be encoded and no send raises, a broadcast
    writes the payload exactly once to each handle registered under the
    user id, in the order of iteration, writes to no other handle, and
    leaves the table, the id sequence and the registry as they were. *)
Theorem broadcast_delivers_exactly_once u data w :
  json_serializable data = true ->
  (forall h, h ∈ registered u w -> h ∉ closed w) ->
  exists w',
    send_data_to_subscribers u data w = (w', inr tt) /\
    trace w' = trace w ++ EvBroadcast u data
                 :: map (fun h => EvSend h (Dumps data)) (elements (registered u w)) /\
    (forall h, sent_to h (trace w') =
               sent_to h (trace w) ++ if decide (h ∈ registered u w) then [Dumps data] else []) /\
    table w' = table w /\ id_seq w' = id_seq w /\ subscriptions w' = subscriptions w.
Proof.
  intros Hser Hopen.
  destruct (broadcast_reaches_registered u data w Hser Hopen) as (w' & Hrun & _ & Hsent).
  exists w'. split; [exact Hrun|].
  pose proof (send_data_to_subscribers_frame _ _ _ _ _ Hrun) as (Ht & _ & Hi & _ & Hsub & _).
  split; [|split; [exact Hsent|auto]].
  rewrite send_data_to_subscribers_unfold in Hrun. cbv zeta in Hrun.
  unfold registered in *.
  destruct (subscriptions w !! u) as [s|]; cbn in *.
  - rewrite send_loop_all_open in Hrun; [|exact Hser|].
    + injection Hrun as <-. cbn. rewrite <- app_assoc. reflexivity.
    + intros h Hh. cbn. apply Hopen. apply elem_of_elements. exact Hh.
  - injection Hrun as <-. cbn. rewrite elements_empty. reflexivity.
Qed.

(** X5: a payload that [json.dumps] cannot encode ends a broadcast at the
    first handle: as soon as one handle is registered under the user id the
    broadcast raises [TypeError] and writes no frame, open connections or
    not. *)
Theorem broadcast_unserializable_raises u data w :
  json_serializable data = false ->
  registered u w <> ∅ ->
  send_data_to_subscribers u data w
  = (set_trace (trace w ++ [EvBroadcast u data]) w, inl TypeError).
Proof.
  intros Hser Hsome. rewrite send_data_to_subscribers_unfold. cbv zeta.
  unfold registered in Hsome.
  destruct (subscriptions w !! u) as [s|]; cbn in Hsome; [|congruence].
  destruct (elements s) as [|h l] eqn:Hl.
  - exfalso. apply Hsome. apply elements_empty_inv in Hl.
    apply leibniz_equiv. exact Hl.
  - cbn. unfold mbind, M_bind, bind. rewrite send_to_one_unfold, Hser. reflexivity.
Qed.

(** ** Create, the store and the registry *)

Lemma elements_nil_empty (s : gset WebSocket) : elements s = [] <-> s = ∅.
Proof.
  split.
  - intros H. apply leibniz_equiv. apply elements_empty_inv. exact H.
  - intros ->. apply elements_empty.
Qed.

Lemma pushes_app tr1 tr2 : pushes (tr1 ++ tr2) = pushes tr1 ++ pushes tr2.
Proof. apply List.filter_app. Qed.

Lemma sent_to_pushes h tr : sent_to h (pushes tr) = sent_to h tr.
Proof.
  unfold pushes. induction tr as [|e tr IH]; simpl; [reflexivity|].
  destruct e; simpl; try exact IH.
  destruct (decide (websocket = h)); [f_equal|]; exact IH.
Qed.

(** X6: with a store that answers, a request creating one record commits
    its row under the next id of the sequence, and then succeeds exactly
    when no handle is registered under the user id of the record: with a
    handle registered, the request raises [TypeError]. Either way no frame
    is written. *)
Theorem create_outcome_by_subscribers item w :
  store_reliable w ->
  exists w',
    create_processed_agent_data [item] w
    = (w', if decide (registered (user_id (agent_data item)) w = ∅)
           then inr RespNone else inl TypeError) /\
    table w' = <[id_seq w := through_columns (insert_values item (id_seq w))]> (table w) /\
    id_seq w' = id_seq w + 1 /\
    forall h, sent_to h (trace w') = sent_to h (trace w).
Proof.
  intros Hrel. rewrite create_single_unfold.
  destruct (create_item item (set_tx (table w) w)) as [w' r] eqn:Hi.
  pose proof (fun h => create_item_sends_nothing _ _ _ _ h Hi) as Hquiet.
  apply create_item_spec in Hi. cbn in Hi.
  rewrite (store_reliable_hd _ Hrel), (store_reliable_hd2 _ Hrel) in Hi.
  destruct Hi as (_ & _ & _ & [H|[H|H]]).
  - destruct H as (H & _). discriminate.
  - destruct H as (_ & H & _). discriminate.
  - destruct H as (_ & _ & Htab & Hseq & _ & Hcase).
    exists w'. split; [|split; [exact Htab|split; [exact Hseq|]]].
    + destruct Hcase as [(Hnone & -> & _)|(Hsome & -> & _)].
      * rewrite decide_True; [reflexivity|]. apply elements_nil_empty. exact Hnone.
      * rewrite decide_False; [reflexivity|]. intros Hc. apply Hsome.
        apply elements_nil_empty. exact Hc.
    + intros h. apply (Hquiet h).
Qed.

(** X7: when the store rejects the insert or the commit of a record, the
    request raises the store's error, the table is as before (the rollback
    drops the pending row), the broadcast is not called and the registry is
    as before. The id sequence stands where it was when the insert was
    rejected, and one past the id drawn when the commit was rejected. *)
Theorem create_store_fault_rolls_back item w :
  hd false (db_faults w) = true \/ hd false (tail (db_faults w)) = true ->
  exists w',
    create_processed_agent_data [item] w = (w', inl DBAPIError) /\
    table w' = table w /\
    pushes (trace w') = pushes (trace w) /\
    subscriptions w' = subscriptions w /\
    id_seq w' = (if hd false (db_faults w) then id_seq w else id_seq w + 1).
Proof.
  intros Hfault. rewrite create_single_unfold.
  destruct (create_item item (set_tx (table w) w)) as [w' r] eqn:Hi.
  apply create_item_spec in Hi. cbn in Hi.
  destruct Hi as (Hsub & _ & _ & [H|[H|H]]).
  - destruct H as (F1 & -> & Htab & Hseq & _ & Htr). exists w'. rewrite F1.
    split; [reflexivity|]. split; [exact Htab|]. split; [|split; [exact Hsub|exact Hseq]].
    rewrite Htr, pushes_app. apply app_nil_r.
  - destruct H as (F1 & _ & -> & Htab & Hseq & _ & Htr). exists w'. rewrite F1.
    split; [reflexivity|]. split; [exact Htab|]. split; [|split; [exact Hsub|exact Hseq]].
    rewrite Htr, pushes_app. apply app_nil_r.
  - destruct H as (F1 & F2 & _). destruct Hfault; congruence.
Qed.

Lemma loop_frame data w w' r :
  tx w = table w ->
  for_each data create_item w = (w', r) ->
  id_seq w <= id_seq w' /\
  subscriptions w' = subscriptions w /\ closed w' = closed w /\
  forall j, j < id_seq w -> table w' !! j = table w !! j.
Proof.
  revert w. induction data as [|a data IH]; intros w Hw; simpl.
  - unfold ret. intros [= <- _]. split; [lia|auto].
  - unfold mbind, M_bind, bind.
    destruct (create_item a w) as [w1 [e|[]]] eqn:Ha;
      pose proof (create_item_frame _ _ _ _ Hw Ha) as [Hle Hfr];
      pose proof (create_item_spec _ _ _ _ Ha) as (Hsub & Hcl & Hclean & _).
    + intros [= <- _]. split; [exact Hle|]. split; [exact Hsub|]. split; [exact Hcl|].
      intros j Hj. apply Hfr. lia.
    + intros Hrest. destruct (IH w1 Hclean Hrest) as (Hle' & Hsub' & Hcl' & Hfr').
      split; [lia|]. split; [congruence|]. split; [congruence|].
      intros j Hj. rewrite Hfr' by lia. apply Hfr. lia.
Qed.

Lemma create_frame data w w' r :
  create_processed_agent_data data w = (w', r) ->
  id_seq w <= id_seq w' /\
  subscriptions w' = subscriptions w /\ closed w' = closed w /\
  forall j, j < id_seq w -> table w' !! j = table w !! j.
Proof.
  rewrite create_unfold.
  destruct (for_each data create_item (set_tx (table w) w)) as [w1 [e|[]]] eqn:Hl;
    intros [= <- _]; apply loop_frame in Hl; try reflexivity; exact Hl.
Qed.

(** X8: no create request, whatever its batch and whatever its outcome,
    overwrites or removes a row that is already stored, nor changes the
    registry, nor makes the id sequence go back. *)
Theorem create_keeps_stored_rows data w :
  store_coherent w ->
  let w' := exec (create_processed_agent_data data) w in
  (forall j row, table w !! j = Some row -> table w' !! j = Some row) /\
  subscriptions w' = subscriptions w /\
  id_seq w <= id_seq w'.
Proof.
  intros Hco w'. subst w'. unfold exec.
  destruct (create_processed_agent_data data w) as [w' r] eqn:Hrun.
  apply create_frame in Hrun. destruct Hrun as (Hle & Hsub & _ & Hfr). cbn.
  split; [|auto].
  intros j row Hj. rewrite Hfr; [exact Hj|]. apply (Hco j row Hj).
Qed.

Lemma loop_all_quiet data w :
  tx w = table w ->
  store_reliable w ->
  Forall (fun item => registered (user_id (agent_data item)) w = ∅) data ->
  exists w', for_each data create_item w = (w', inr tt).
Proof.
  revert w. induction data as [|a data IH]; intros w Hw Hrel Hquiet; simpl.
  - eexists. reflexivity.
  - unfold mbind, M_bind, bind.
    apply Forall_cons in Hquiet. destruct Hquiet as [Ha Hquiet].
    destruct (create_item a w) as [w1 r] eqn:Hi.
    pose proof (create_item_spec _ _ _ _ Hi) as (Hsub & _ & Hclean & Hcases).
    cbn in Hcases.
    rewrite (store_reliable_hd _ Hrel), (store_reliable_hd2 _ Hrel) in Hcases.
    destruct Hcases as [H|[H|H]].
    + destruct H as (H & _). discriminate.
    + destruct H as (_ & H & _). discriminate.
    + destruct H as (_ & _ & _ & _ & Hfaults & [(_ & -> & _)|(Hsome & _)]).
      * apply IH; [exact Hclean| |].
        -- unfold store_reliable in *. rewrite Hfaults.
           destruct Hrel as [|b fs _ [|b' fs' _ Hrest]]; cbn; auto.
        -- eapply Forall_impl; [exact Hquiet|]. intros item Hitem.
           unfold registered in *. rewrite Hsub. exact Hitem.
      * exfalso. apply Hsome. apply elements_nil_empty. exact Ha.
Qed.

(** X9: with a store that answers and no handle registered under the user
    id of any of its records, a batch of any length succeeds: the handler
    returns [None] and the rows sit under consecutive ids, in the order of
    the batch, every other row being as before. *)
Theorem create_quiet_batch_succeeds data w :
  store_reliable w ->
  Forall (fun item => registered (user_id (agent_data item)) w = ∅) data ->
  exists w',
    create_processed_agent_data data w = (w', inr RespNone) /\
    id_seq w' = id_seq w + Z.of_nat (length data) /\
    (forall (i : nat) item, data !! i = Some item ->
       table w' !! (id_seq w + Z.of_nat i)
       = Some (through_columns (insert_values item (id_seq w + Z.of_nat i)))) /\
    (forall j, j < id_seq w \/ id_seq w + Z.of_nat (length data) <= j ->
       table w' !! j = table w !! j).
Proof.
  intros Hrel Hquiet.
  destruct (loop_all_quiet data (set_tx (table w) w)) as (w1 & Hloop);
    [reflexivity|exact Hrel|exact Hquiet|].
  rewrite create_unfold, Hloop.
  apply loop_ok_spec in Hloop; [|reflexivity]. cbn in Hloop.
  destruct Hloop as (Hseq & _ & _ & Hrows & Hfr).
  eexists. split; [reflexivity|]. cbn. auto.
Qed.

(** ** Read, list, update and delete, whatever the store does *)

Lemma read_frame id w w' r :
  read_processed_agent_data id w = (w', r) ->
  table w' = table w /\ tx w' = table w' /\ id_seq w' = id_seq w /\
  subscriptions w' = subscriptions w /\ closed w' = closed w /\ trace w' = trace w.
Proof.
  unfold read_processed_agent_data, with_session, execute_select_one, store_call,
    get, mbind, M_bind, bind, ret, raise.
  simpl. destruct (hd false (db_faults w)); simpl.
  - intros [= <- _]. repeat split.
  - destruct (table w !! id); intros [= <- _]; repeat split.
Qed.

Lemma list_unfold w :
  list_processed_agent_data w =
  (set_tx (table w) (set_db_faults (tail (db_faults w)) w),
   if hd false (db_faults w) then inl DBAPIError
   else inr (RespList (from_row <$> (snd <$> map_to_list (table w))))).
Proof.
  unfold list_processed_agent_data, with_session, execute_select_all, store_call,
    get, mbind, M_bind, bind, ret.
  simpl. destruct (hd false (db_faults w)); reflexivity.
Qed.

Lemma update_cases id data w w' r :
  update_processed_agent_data id data w = (w', r) ->
  tx w' = table w' /\ id_seq w' = id_seq w /\
  subscriptions w' = subscriptions w /\ closed w' = closed w /\
  pushes (trace w') = pushes (trace w) /\
  (table w' = table w \/
   (is_Some (table w !! id) /\ table w' = <[id := through_columns (insert_values data id)]> (table w))).
Proof.
  unfold update_processed_agent_data, with_session, execute_update, execute_select_one,
    commit, log, store_call, modify, get, mbind, M_bind, bind, ret, raise.
  simpl. destruct (hd false (db_faults w)); simpl.
  { intros [= <- _]. repeat split; auto. }
  destruct (table w !! id) as [old|] eqn:Hid; simpl.
  - destruct (hd false (tail (db_faults w))); simpl.
    { intros [= <- _]. simpl. unfold pushes. rewrite List.filter_app. simpl.
      rewrite app_nil_r. repeat split; auto. }
    destruct (hd false (tail (tail (db_faults w)))); simpl.
    { intros [= <- _]. simpl. unfold pushes. rewrite !List.filter_app. simpl.
      rewrite !app_nil_r. repeat split; eauto. }
    rewrite lookup_insert_eq.
    intros [= <- _]. simpl. unfold pushes. rewrite !List.filter_app. simpl.
    rewrite !app_nil_r. repeat split; eauto.
  - destruct (hd false (tail (db_faults w))); simpl.
    { intros [= <- _]. repeat split; auto. }
    intros [= <- _]. simpl. unfold pushes. rewrite List.filter_app. simpl.
    rewrite app_nil_r. repeat split; auto.
Qed.

Lemma delete_cases id w w' r :
  delete_processed_agent_data id w = (w', r) ->
  tx w' = table w' /\ id_seq w' = id_seq w /\
  subscriptions w' = subscriptions w /\ closed w' = closed w /\
  pushes (trace w') = pushes (trace w) /\
  (table w' = table w \/ table w' = delete id (table w)).
Proof.
  unfold delete_processed_agent_data, with_session, execute_select_one, execute_delete,
    commit, log, store_call, modify, get, mbind, M_bind, bind, ret, raise.
  simpl. destruct (hd false (db_faults w)); simpl.
  { intros [= <- _]. repeat split; auto. }
  destruct (table w !! id) as [row|]; simpl.
  - destruct (hd false (tail (db_faults w))); simpl.
    { intros [= <- _]. repeat split; auto. }
    destruct (hd false (tail (tail (db_faults w)))); simpl.
    { intros [= <- _]. simpl. unfold pushes. rewrite List.filter_app. simpl.
      rewrite app_nil_r. repeat split; auto. }
    intros [= <- _]. simpl. unfold pushes. rewrite !List.filter_app. simpl.
    rewrite !app_nil_r. repeat split; auto.
  - intros [= <- _]. repeat split; auto.
Qed.

Lemma update_ok id data old w :
  table w !! id = Some old ->
  hd false (db_faults w) = false ->
  hd false (tail (db_faults w)) = false ->
  hd false (tail (tail (db_faults w))) = false ->
  exists w',
    update_processed_agent_data id data w
    = (w', inr (RespRecord (from_row (through_columns (insert_values data id))))) /\
    table w' = <[id := through_columns (insert_values data id)]> (table w) /\
    db_faults w' = tail (tail (tail (db_faults w))).
Proof.
  intros Hid F1 F2 F3.
  unfold update_processed_agent_data, with_session, execute_update, execute_select_one,
    commit, log, store_call, modify, get, mbind, M_bind, bind, ret, raise.
  simpl. rewrite F1. simpl. rewrite Hid. simpl. rewrite F2. simpl. rewrite F3. simpl.
  rewrite lookup_insert_eq.
  eexists. split; [reflexivity|]. simpl. auto.
Qed.

Lemma delete_ok id row w :
  table w !! id = Some row ->
  hd false (db_faults w) = false ->
  hd false (tail (db_faults w)) = false ->
  hd false (tail (tail (db_faults w))) = false ->
  exists w',
    delete_processed_agent_data id w = (w', inr (RespRecord (from_row row))) /\
    table w' = delete id (table w) /\
    db_faults w' = tail (tail (tail (db_faults w))).
Proof.
  intros Hid F1 F2 F3.
  unfold delete_processed_agent_data, with_session, execute_select_one, execute_delete,
    commit, log, store_call, modify, get, mbind, M_bind, bind, ret, raise.
  simpl. rewrite F1. simpl. rewrite Hid. simpl. rewrite F2. simpl. rewrite F3. simpl.
  eexists. split; [reflexivity|]. simpl. auto.
Qed.

Lemma store_reliable_after w w' n :
  store_reliable w -> db_faults w' = Nat.iter n (@tail bool) (db_faults w) ->
  store_reliable w'.
Proof.
  unfold store_reliable. intros H ->. induction n as [|n IH]; [exact H|].
  simpl. destruct IH; simpl; auto.
Qed.

(** X10: reading and listing change nothing, whether the store answers or
    not: the table, the id sequence, the registry and the trace are as
    before, and nothing is left pending in the session. *)
Theorem read_and_list_change_nothing id w :
  let wr := exec (read_processed_agent_data id) w in
  let wl := exec list_processed_agent_data w in
  (table wr = table w /\ id_seq wr = id_seq w /\
   subscriptions wr = subscriptions w /\ trace wr = trace w) /\
  (table wl = table w /\ id_seq wl = id_seq w /\
   subscriptions wl = subscriptions w /\ trace wl = trace w).
Proof.
  intros wr wl. subst wr wl. unfold exec. split.
  - destruct (read_processed_agent_data id w) as [w' r] eqn:Hr.
    apply read_frame in Hr. cbn. tauto.
  - rewrite list_unfold. cbn. auto.
Qed.

(** X11: when the store answers, reading the id of a stored row returns
    that row, column by column; in a coherent store the record returned
    bears the id that was asked for. *)
Theorem read_returns_stored_row id row w :
  table w !! id = Some row ->
  hd false (db_faults w) = false ->
  store_coherent w ->
  exists w' stored,
    read_processed_agent_data id w = (w', inr (RespRecord stored)) /\
    stored = from_row row /\
    rec_id stored = id /\
    rec_road_state stored = col_road_state row /\
    rec_user_id stored = col_user_id row /\
    rec_timestamp stored = col_timestamp row.
Proof.
  intros Hid F Hco.
  destruct (read_spec id w F) as (w' & Hr & _).
  rewrite Hid in Hr. exists w', (from_row row).
  split; [exact Hr|]. split; [reflexivity|].
  cbn. split; [apply (Hco id row Hid)|auto].
Qed.

(** X12: when the store answers, listing returns the stored rows, each of
    them once and nothing else: a record is in the list exactly when it is
    the row stored under its id, there are as many records as rows, and in
    a coherent store no id comes twice. *)
Theorem list_returns_each_row_once w :
  hd false (db_faults w) = false ->
  store_coherent w ->
  exists w' l,
    list_processed_agent_data w = (w', inr (RespList l)) /\
    (forall stored, stored ∈ l <->
       exists row, table w !! rec_id stored = Some row /\ stored = from_row row) /\
    length l = size (table w) /\
    NoDup (rec_id <$> l).
Proof.
  intros F Hco. rewrite list_unfold, F.
  eexists _, _. split; [reflexivity|].
  assert (Hids : rec_id <$> (from_row <$> (snd <$> map_to_list (table w)))
                 = fst <$> map_to_list (table w)).
  { rewrite <- !list_fmap_compose. apply Forall_fmap_ext, Forall_forall.
    intros [j row] Hin. apply elem_of_map_to_list in Hin. cbn.
    apply (Hco j row Hin). }
  split; [|split].
  - intros stored. rewrite <- list_fmap_compose. rewrite list_elem_of_fmap. split.
    + intros ([j row] & -> & Hin). apply elem_of_map_to_list in Hin. cbn.
      exists row. split; [|reflexivity].
      destruct (Hco j row Hin) as [-> _]. exact Hin.
    + intros (row & Hrow & ->). exists (rec_id (from_row row), row).
      split; [reflexivity|]. apply elem_of_map_to_list. exact Hrow.
  - rewrite !length_fmap. apply length_map_to_list.
  - rewrite Hids. apply NoDup_fst_map_to_list.
Qed.


(** X14: updating twice with the same fields is updating once: the second
    update returns the same record as the first and leaves the table as the
    first left it. *)
Theorem update_twice_is_update_once id data old w :
  table w !! id = Some old ->
  store_reliable w ->
  exists w1 w2 stored,
    update_processed_agent_data id data w = (w1, inr (RespRecord stored)) /\
    update_processed_agent_data id data w1 = (w2, inr (RespRecord stored)) /\
    table w2 = table w1.
Proof.
  intros Hid Hrel.
  destruct (update_ok id data old w Hid (store_reliable_hd _ Hrel)
              (store_reliable_hd2 _ Hrel) (store_reliable_hd3 _ Hrel))
    as (w1 & Hrun1 & Htab1 & Hf1).
  assert (Hrel1 : store_reliable w1) by (apply (store_reliable_after w w1 3 Hrel Hf1)).
  assert (Hid1 : table w1 !! id = Some (through_columns (insert_values data id))).
  { rewrite Htab1. apply lookup_insert_eq. }
  destruct (update_ok id data _ w1 Hid1 (store_reliable_hd _ Hrel1)
              (store_reliable_hd2 _ Hrel1) (store_reliable_hd3 _ Hrel1))
    as (w2 & Hrun2 & Htab2 & _).
  exists w1, w2, (from_row (through_columns (insert_values data id))).
  split; [exact Hrun1|]. split; [exact Hrun2|].
  rewrite Htab2, Htab1. apply insert_insert_eq.
Qed.


(** X16: a delete is final: once the row of an id has been deleted, reading,
    updating and deleting that id each raise the 404 [HTTPException]. *)
Theorem delete_is_final id row data w :
  table w !! id = Some row ->
  store_reliable w ->
  let w1 := exec (delete_processed_agent_data id) w in
  table w1 !! id = None /\
  snd (read_processed_agent_data id w1)
    = inl (HTTPException 404 "ProcessedAgentData not found") /\
  snd (update_processed_agent_data id data w1)
    = inl (HTTPException 404 "ProcessedAgentData not found") /\
  snd (delete_processed_agent_data id w1)
    = inl (HTTPException 404 "ProcessedAgentData not found").
Proof.
  intros Hid Hrel w1. subst w1. unfold exec.
  destruct (delete_ok id row w Hid (store_reliable_hd _ Hrel)
              (store_reliable_hd2 _ Hrel) (store_reliable_hd3 _ Hrel))
    as (w1 & Hrun & Htab & Hf).
  rewrite Hrun. cbn [fst].
  assert (Hgone : table w1 !! id = None) by (rewrite Htab; apply lookup_delete_eq).
  assert (Hrel1 : store_reliable w1) by (apply (store_reliable_after w w1 3 Hrel Hf)).
  split; [exact Hgone|].
  destruct (read_spec id w1 (store_reliable_hd _ Hrel1)) as (wa & Ha & _).
  destruct (update_missing_spec id data w1 Hgone (store_reliable_hd _ Hrel1)
              (store_reliable_hd2 _ Hrel1)) as (wb & Hb & _).
  destruct (delete_spec id w1 (store_reliable_hd _ Hrel1) (store_reliable_hd2 _ Hrel1)
              (store_reliable_hd3 _ Hrel1)) as (wc & Hc & _).
  rewrite Hgone in Ha, Hc. rewrite Ha, Hb, Hc. auto.
Qed.

(** X17: updates and deletes notify nobody, whatever the store does: they
    neither call the broadcast nor write a frame, and they leave the
    registry and the id sequence as they were. *)
Theorem update_and_delete_notify_nobody id data w :
  let wu := exec (update_processed_agent_data id data) w in
  let wd := exec (delete_processed_agent_data id) w in
  (pushes (trace wu) = pushes (trace w) /\
   subscriptions wu = subscriptions w /\ id_seq wu = id_seq w) /\
  (pushes (trace wd) = pushes (trace w) /\
   subscriptions wd = subscriptions w /\ id_seq wd = id_seq w).
Proof.
  intros wu wd. subst wu wd. unfold exec. split.
  - destruct (update_processed_agent_data id data w) as [w' r] eqn:Hr.
    apply update_cases in Hr. cbn. tauto.
  - destruct (delete_processed_agent_data id w) as [w' r] eqn:Hr.
    apply delete_cases in Hr. cbn. tauto.
Qed.

(** ** What holds along the life of the server *)

Lemma create_item_coherent item w w' r :
  tx w = table w ->
  store_coherent w ->
  create_item item w = (w', r) ->
  store_coherent w'.
Proof.
  intros Hw Hco H. apply create_item_spec in H. cbn in H.
  destruct H as (_ & _ & _ & [H|[H|H]]).
  - destruct H as (_ & _ & Htab & Hseq & _). intros j row Hj.
    rewrite Htab in Hj. rewrite Hseq. apply (Hco j row Hj).
  - destruct H as (_ & _ & _ & Htab & Hseq & _). intros j row Hj.
    rewrite Htab in Hj. rewrite Hseq. destruct (Hco j row Hj). split; [auto|lia].
  - destruct H as (_ & _ & Htab & Hseq & _). intros j row Hj.
    rewrite Htab, Hw in Hj. rewrite Hseq.
    destruct (decide (id_seq w = j)) as [<-|Hne].
    + rewrite lookup_insert_eq in Hj. injection Hj as <-. cbn. split; [reflexivity|lia].
    + rewrite lookup_insert_ne in Hj by exact Hne.
      destruct (Hco j row Hj). split; [auto|lia].
Qed.

Lemma loop_coherent data w w' r :
  tx w = table w ->
  store_coherent w ->
  for_each data create_item w = (w', r) ->
  store_coherent w'.
Proof.
  revert w. induction data as [|a data IH]; intros w Hw Hco; simpl.
  - unfold ret. intros [= <- _]. exact Hco.
  - unfold mbind, M_bind, bind.
    destruct (create_item a w) as [w1 [e|[]]] eqn:Ha;
      pose proof (create_item_coherent _ _ _ _ Hw Hco Ha) as Hco1.
    + intros [= <- _]. exact Hco1.
    + apply IH; [|exact Hco1]. eapply create_item_clean; eauto.
Qed.

Lemma create_coherent data w w' r :
  store_coherent w ->
  create_processed_agent_data data w = (w', r) ->
  store_coherent w'.
Proof.
  intros Hco. rewrite create_unfold.
  destruct (for_each data create_item (set_tx (table w) w)) as [w1 [e|[]]] eqn:Hl;
    intros [= <- _]; apply loop_coherent in Hl; try reflexivity; exact Hl || exact Hco.
Qed.

Lemma websocket_endpoint_connect_frame websocket u w :
  let w' := exec (websocket_endpoint_connect websocket u) w in
  table w' = table w /\ id_seq w' = id_seq w /\ trace w' = trace w.
Proof. cbn. auto. Qed.

Lemma websocket_endpoint_disconnect_frame websocket u w :
  let w' := exec (websocket_endpoint_disconnect websocket u) w in
  table w' = table w /\ id_seq w' = id_seq w /\ trace w' = trace w.
Proof.
  cbv zeta. unfold exec. rewrite websocket_endpoint_disconnect_unfold. cbv zeta.
  destruct (subscriptions w !! u) as [s|]; [|cbn; auto].
  destruct (decide (websocket ∈ s)); cbn; auto.
Qed.

Lemma perform_coherent a w :
  store_coherent w ->
  store_coherent (perform a w) /\ id_seq w <= id_seq (perform a w).
Proof.
  intros Hco. destruct a; cbn [perform]; unfold exec.
  - destruct (create_processed_agent_data data w) as [w' r] eqn:Hr. cbn [fst].
    split; [eapply create_coherent; eauto|]. apply create_frame in Hr. tauto.
  - destruct (read_processed_agent_data id w) as [w' r] eqn:Hr. cbn [fst].
    apply read_frame in Hr. destruct Hr as (Ht & _ & Hs & _).
    split; [|lia]. intros j row Hj. rewrite Ht in Hj. rewrite Hs. apply (Hco j row Hj).
  - rewrite list_unfold. cbn. split; [exact Hco|lia].
  - destruct (update_processed_agent_data id data w) as [w' r] eqn:Hr. cbn [fst].
    apply update_cases in Hr. destruct Hr as (_ & Hs & _ & _ & _ & Ht).
    split; [|lia]. intros j row Hj. rewrite Hs.
    destruct Ht as [Ht|[[old Hold] Ht]]; rewrite Ht in Hj.
    + apply (Hco j row Hj).
    + destruct (decide (id = j)) as [<-|Hne].
      * rewrite lookup_insert_eq in Hj. injection Hj as <-. cbn.
        split; [reflexivity|]. apply (Hco id old Hold).
      * rewrite lookup_insert_ne in Hj by exact Hne. apply (Hco j row Hj).
  - destruct (delete_processed_agent_data id w) as [w' r] eqn:Hr. cbn [fst].
    apply delete_cases in Hr. destruct Hr as (_ & Hs & _ & _ & _ & Ht).
    split; [|lia]. intros j row Hj. rewrite Hs.
    destruct Ht as [Ht|Ht]; rewrite Ht in Hj.
    + apply (Hco j row Hj).
    + apply lookup_delete_Some in Hj. destruct Hj as [_ Hj]. apply (Hco j row Hj).
  - rewrite websocket_endpoint_connect_unfold. cbn. split; [exact Hco|lia].
  - pose proof (websocket_endpoint_disconnect_frame websocket user w) as (Ht & Hs & _).
    unfold exec in Ht, Hs. split; [|lia].
    intros j row Hj. rewrite Ht in Hj. rewrite Hs. apply (Hco j row Hj).
  - split; [exact Hco|]. cbn. lia.
  - split; [exact Hco|]. cbn. lia.
Qed.

Lemma empty_world_coherent : store_coherent empty_world.
Proof. intros j row Hj. cbn in Hj. rewrite lookup_empty in Hj. discriminate. Qed.

Lemma ids_drawn_app tr1 tr2 : ids_drawn (tr1 ++ tr2) = ids_drawn tr1 ++ ids_drawn tr2.
Proof.
  induction tr1 as [|e tr1 IH]; simpl; [reflexivity|].
  destruct e; simpl; congruence.
Qed.

Lemma draws_fresh_ids_none w w' new :
  trace w' = trace w ++ new -> ids_drawn new = [] -> id_seq w <= id_seq w' ->
  draws_fresh_ids w w'.
Proof.
  intros Htr Hnone Hle. split; [exact Hle|]. exists new. split; [exact Htr|].
  rewrite Hnone. split; [apply NoDup_nil_2|].
  intros j Hj. exfalso. exact (not_elem_of_nil _ Hj).
Qed.

Lemma draws_fresh_ids_same w w' :
  trace w' = trace w -> id_seq w' = id_seq w -> draws_fresh_ids w w'.
Proof.
  intros Htr Hseq. apply (draws_fresh_ids_none w w' []); [|reflexivity|lia].
  rewrite app_nil_r. exact Htr.
Qed.

Lemma draws_fresh_ids_trans w1 w2 w3 :
  draws_fresh_ids w1 w2 -> draws_fresh_ids w2 w3 -> draws_fresh_ids w1 w3.
Proof.
  intros (Hle1 & new1 & Htr1 & Hnd1 & Hb1) (Hle2 & new2 & Htr2 & Hnd2 & Hb2).
  split; [lia|]. exists (new1 ++ new2).
  split; [rewrite Htr2, Htr1, app_assoc; reflexivity|].
  rewrite ids_drawn_app. split.
  - apply NoDup_app. split; [exact Hnd1|]. split; [|exact Hnd2].
    intros j Hj1 Hj2. specialize (Hb1 j Hj1). specialize (Hb2 j Hj2). lia.
  - intros j Hj. apply elem_of_app in Hj. destruct Hj as [Hj|Hj].
    + specialize (Hb1 j Hj). lia.
    + specialize (Hb2 j Hj). lia.
Qed.

Lemma draws_fresh_ids_one w w' pre row post :
  trace w' = trace w ++ pre ++ EvInsert row :: post ->
  ids_drawn pre = [] -> ids_drawn post = [] ->
  col_id row = id_seq w -> id_seq w' = id_seq w + 1 ->
  draws_fresh_ids w w'.
Proof.
  intros Htr Hpre Hpost Hid Hseq. split; [lia|].
  eexists. split; [exact Htr|]. rewrite ids_drawn_app, Hpre. simpl. rewrite Hpost, Hid.
  split; [apply NoDup_singleton|].
  intros j Hj. apply list_elem_of_singleton in Hj. lia.
Qed.

Lemma create_item_draws item w w' r :
  create_item item w = (w', r) -> draws_fresh_ids w w'.
Proof.
  intros H. apply create_item_spec in H. cbn in H.
  destruct H as (_ & _ & _ & [H|[H|H]]).
  - destruct H as (_ & _ & _ & Hseq & _ & Htr).
    apply (draws_fresh_ids_none w w' [EvRollback]); [exact Htr|reflexivity|lia].
  - destruct H as (_ & _ & _ & _ & Hseq & _ & Htr).
    eapply (draws_fresh_ids_one w w' []);
      [exact Htr|reflexivity|reflexivity|reflexivity|exact Hseq].
  - destruct H as (_ & _ & _ & Hseq & _ & [(_ & _ & Htr)|(_ & _ & Htr)]);
      eapply (draws_fresh_ids_one w w' []);
      [exact Htr|reflexivity|reflexivity|reflexivity|exact Hseq
      |exact Htr|reflexivity|reflexivity|reflexivity|exact Hseq].
Qed.

Lemma create_draws data w w' r :
  create_processed_agent_data data w = (w', r) -> draws_fresh_ids w w'.
Proof.
  rewrite create_unfold.
  assert (Hloop : forall w0 w1 r0,
            for_each data create_item w0 = (w1, r0) -> draws_fresh_ids w0 w1).
  { induction data as [|a data IH]; intros w0 w1 r0; simpl.
    - unfold ret. intros [= <- _]. apply draws_fresh_ids_same; reflexivity.
    - unfold mbind, M_bind, bind.
      destruct (create_item a w0) as [wa [e|[]]] eqn:Ha;
        apply create_item_draws in Ha.
      + intros [= <- _]. exact Ha.
      + intros Hrest. apply (draws_fresh_ids_trans _ _ _ Ha (IH _ _ _ Hrest)). }
  destruct (for_each data create_item (set_tx (table w) w)) as [w1 [e|[]]] eqn:Hl;
    intros [= <- _]; apply Hloop in Hl; exact Hl.
Qed.

Ltac no_insert_in_trace :=
  first
    [ exists []; split; [symmetry; apply app_nil_r | reflexivity]
    | eexists; split; [rewrite <- ?app_assoc; reflexivity | reflexivity] ].

Lemma update_draws id data w w' r :
  update_processed_agent_data id data w = (w', r) ->
  exists new, trace w' = trace w ++ new /\ ids_drawn new = [].
Proof.
  unfold update_processed_agent_data, with_session, execute_update, execute_select_one,
    commit, log, store_call, modify, get, mbind, M_bind, bind, ret, raise.
  simpl. destruct (hd false (db_faults w)); simpl.
  { intros [= <- _]. simpl. no_insert_in_trace. }
  destruct (table w !! id) as [old|]; simpl.
  - destruct (hd false (tail (db_faults w))); simpl.
    { intros [= <- _]. simpl. no_insert_in_trace. }
    destruct (hd false (tail (tail (db_faults w)))); simpl.
    { intros [= <- _]. simpl. no_insert_in_trace. }
    rewrite lookup_insert_eq. intros [= <- _]. simpl. no_insert_in_trace.
  - destruct (hd false (tail (db_faults w))); simpl;
      intros [= <- _]; simpl; no_insert_in_trace.
Qed.

Lemma delete_draws id w w' r :
  delete_processed_agent_data id w = (w', r) ->
  exists new, trace w' = trace w ++ new /\ ids_drawn new = [].
Proof.
  unfold delete_processed_agent_data, with_session, execute_select_one, execute_delete,
    commit, log, store_call, modify, get, mbind, M_bind, bind, ret, raise.
  simpl. destruct (hd false (db_faults w)); simpl.
  { intros [= <- _]. simpl. no_insert_in_trace. }
  destruct (table w !! id) as [row|]; simpl.
  - destruct (hd false (tail (db_faults w))); simpl.
    { intros [= <- _]. simpl. no_insert_in_trace. }
    destruct (hd false (tail (tail (db_faults w)))); simpl;
      intros [= <- _]; simpl; no_insert_in_trace.
  - intros [= <- _]. simpl. no_insert_in_trace.
Qed.

Lemma perform_draws a w : draws_fresh_ids w (perform a w).
Proof.
  destruct a; cbn [perform]; unfold exec.
  - destruct (create_processed_agent_data data w) as [w' r] eqn:Hr. cbn [fst].
    apply (create_draws _ _ _ _ Hr).
  - destruct (read_processed_agent_data id w) as [w' r] eqn:Hr. cbn [fst].
    apply read_frame in Hr. destruct Hr as (_ & _ & Hs & _ & _ & Ht).
    apply draws_fresh_ids_same; assumption.
  - rewrite list_unfold. apply draws_fresh_ids_same; reflexivity.
  - destruct (update_processed_agent_data id data w) as [w' r] eqn:Hr. cbn [fst].
    destruct (update_draws _ _ _ _ _ Hr) as (new & Htr & Hnone).
    apply update_cases in Hr. destruct Hr as (_ & Hs & _).
    apply (draws_fresh_ids_none w w' new Htr Hnone). lia.
  - destruct (delete_processed_agent_data id w) as [w' r] eqn:Hr. cbn [fst].
    destruct (delete_draws _ _ _ _ Hr) as (new & Htr & Hnone).
    apply delete_cases in Hr. destruct Hr as (_ & Hs & _).
    apply (draws_fresh_ids_none w w' new Htr Hnone). lia.
  - rewrite websocket_endpoint_connect_unfold. apply draws_fresh_ids_same; reflexivity.
  - destruct (websocket_endpoint_disconnect_frame websocket user w) as (_ & Hs & Ht).
    apply draws_fresh_ids_same; assumption.
  - apply draws_fresh_ids_same; reflexivity.
  - apply draws_fresh_ids_same; reflexivity.
Qed.

(** X18: whatever requests the server handles, and whenever the store fails
    or connections are lost, a store that is coherent stays so: every row
    sits under the id it bears, below the id sequence, and the sequence
    never goes back. No id is handed out twice: the ids drawn for the
    inserts of the run are pairwise distinct, none of them is the id of a
    row stored before the run, and all are below the sequence the run
    leaves. *)
Theorem store_stays_coherent l w :
  store_coherent w ->
  store_coherent (run l w) /\
  id_seq w <= id_seq (run l w) /\
  exists new,
    trace (run l w) = trace w ++ new /\
    NoDup (ids_drawn new) /\
    forall j, j ∈ ids_drawn new ->
      table w !! j = None /\ id_seq w <= j < id_seq (run l w).
Proof.
  intros Hco.
  assert (Hrun : store_coherent (run l w) /\ draws_fresh_ids w (run l w)).
  { unfold run. revert w Hco. induction l as [|a l IH]; intros w Hco; cbn.
    - split; [exact Hco|]. apply draws_fresh_ids_same; reflexivity.
    - destruct (perform_coherent a w Hco) as [Hco1 _].
      destruct (IH _ Hco1) as [Hco2 Hfresh2]. split; [exact Hco2|].
      apply (draws_fresh_ids_trans _ _ _ (perform_draws a w) Hfresh2). }
  destruct Hrun as (Hco' & Hle & new & Htr & Hnd & Hb).
  split; [exact Hco'|]. split; [exact Hle|].
  exists new. split; [exact Htr|]. split; [exact Hnd|].
  intros j Hj. specialize (Hb j Hj). split; [|exact Hb].
  destruct (table w !! j) as [row|] eqn:Hrow; [|reflexivity].
  exfalso. destruct (Hco j row Hrow) as [_ Hlt]. lia.
Qed.

Lemma perform_registry a w1 w2 :
  subscriptions w1 = subscriptions w2 ->
  subscriptions (perform a w1) =
  if is_websocket_action a then subscriptions (perform a w2) else subscriptions w2.
Proof.
  intros Heq. destruct a; cbn [perform is_websocket_action]; unfold exec.
  - destruct (create_processed_agent_data data w1) as [w' r] eqn:Hr. cbn [fst].
    apply create_frame in Hr. destruct Hr as (_ & -> & _). exact Heq.
  - destruct (read_processed_agent_data id w1) as [w' r] eqn:Hr. cbn [fst].
    apply read_frame in Hr. destruct Hr as (_ & _ & _ & -> & _). exact Heq.
  - rewrite list_unfold. cbn. exact Heq.
  - destruct (update_processed_agent_data id data w1) as [w' r] eqn:Hr. cbn [fst].
    apply update_cases in Hr. destruct Hr as (_ & _ & -> & _). exact Heq.
  - destruct (delete_processed_agent_data id w1) as [w' r] eqn:Hr. cbn [fst].
    apply delete_cases in Hr. destruct Hr as (_ & _ & -> & _). exact Heq.
  - rewrite !websocket_endpoint_connect_unfold. cbn. unfold registered.
    rewrite Heq. reflexivity.
  - rewrite !websocket_endpoint_disconnect_unfold. cbv zeta. rewrite Heq.
    destruct (subscriptions w2 !! user) as [s|]; [|cbn; exact Heq].
    destruct (decide (websocket ∈ s)); cbn; [reflexivity|exact Heq].
  - cbn. exact Heq.
  - cbn. exact Heq.
Qed.

(** X19: the registry is the work of the WebSocket endpoint alone: after any
    run of the server it is what the connects and disconnects of that run,
    taken by themselves, make of it. No create, read, list, update or
    delete, no fault of the store and no lost connection adds or removes a
    handle. *)
Theorem registry_follows_websocket_endpoint l w :
  subscriptions (run l w)
  = subscriptions (run (List.filter is_websocket_action l) w).
Proof.
  unfold run.
  assert (Hgen : forall w1 w2, subscriptions w1 = subscriptions w2 ->
            subscriptions (fold_left (fun w a => perform a w) l w1)
            = subscriptions (fold_left (fun w a => perform a w)
                               (List.filter is_websocket_action l) w2)).
  { induction l as [|a l IH]; intros w1 w2 Heq; cbn; [exact Heq|].
    pose proof (perform_registry a w1 w2 Heq) as Hstep.
    destruct (is_websocket_action a); cbn; apply IH; exact Hstep. }
  apply Hgen. reflexivity.
Qed.

Lemma perform_writes_no_frame a w h :
  sent_to h (trace (perform a w)) = sent_to h (trace w).
Proof.
  destruct a; cbn [perform].
  - apply create_sends_nothing.
  - unfold exec. destruct (read_processed_agent_data id w) as [w' r] eqn:Hr. cbn [fst].
    apply read_frame in Hr. destruct Hr as (_ & _ & _ & _ & _ & ->). reflexivity.
  - unfold exec. rewrite list_unfold. reflexivity.
  - unfold exec. destruct (update_processed_agent_data id data w) as [w' r] eqn:Hr.
    cbn [fst]. apply update_cases in Hr. destruct Hr as (_ & _ & _ & _ & Hp & _).
    rewrite <- (sent_to_pushes h (trace w')), Hp. apply sent_to_pushes.
  - unfold exec. destruct (delete_processed_agent_data id w) as [w' r] eqn:Hr.
    cbn [fst]. apply delete_cases in Hr. destruct Hr as (_ & _ & _ & _ & Hp & _).
    rewrite <- (sent_to_pushes h (trace w')), Hp. apply sent_to_pushes.
  - reflexivity.
  - destruct (websocket_endpoint_disconnect_frame websocket user w) as (_ & _ & ->).
    reflexivity.
  - reflexivity.
  - reflexivity.
Qed.

(** X20: along any run of the server no frame is ever written to any
    connection: the only caller of the broadcast is create, and what it
    hands over cannot be encoded. *)
Theorem server_never_writes_a_frame l w h :
  sent_to h (trace (run l w)) = sent_to h (trace w).
Proof.
  unfold run. revert w. induction l as [|a l IH]; intros w; cbn; [reflexivity|].
  rewrite IH. apply perform_writes_no_frame.
Qed.

End Store.


Arguments table {datetime} _.
Arguments tx {datetime} _.
Arguments id_seq {datetime} _.
Arguments db_faults {datetime} _.
Arguments subscriptions {datetime} _.
Arguments closed {datetime} _.
Arguments trace {datetime} _.
Arguments set_closed {datetime} _ _.
Arguments set_db_faults {datetime} _ _.
Arguments set_tx {datetime} _ _.
Arguments exec {datetime A} _ _.
Arguments registered {datetime} _ _.
Arguments sent_to {datetime} _ _.
Arguments store_reliable {datetime} _.
Arguments insert_values {datetime} _ _.
Arguments through_columns {datetime columns} _.
Arguments insert_and_commit {datetime columns} _ _.
Arguments send_data_to_subscribers {datetime} _ _ _.
Arguments create_processed_agent_data {datetime columns} _ _.
Arguments read_processed_agent_data {datetime} _ _.
Arguments update_processed_agent_data {datetime columns} _ _ _.
Arguments delete_processed_agent_data {datetime} _ _.
Arguments post_processed_agent_data {datetime} _ {columns} _ _.
Arguments constraint_violated {datetime} _ _.
Arguments RespNone {datetime}.
Arguments RespRecord {datetime} _.
Arguments EvInsert {datetime} _.
Arguments EvCommit {datetime} _.
Arguments EvRollback {datetime}.
Arguments EvBroadcast {datetime} _ _.
Arguments EvSend {datetime} _ _.
Arguments col_road_state {datetime} _.

(** * The model at work

    The date-time parameters are instantiated with [text_datetime]; the
    timestamp of every sample is the one of the scenario of section 8. *)

(** C1: with handles 1 and 2 subscribed under user 7 and handle 3 under
    user 8, a create for user 7 commits its row and then raises [TypeError]
    out of [json.dumps]: no frame is written to handle 1, 2 or 3. *)
Theorem create_for_subscribed_user_delivers_nothing :
  let w := world_7_7_8 text_datetime in
  let body := PyList [sample_payload "normal" 7 (PyInt 1)] in
  let w' := exec (post_processed_agent_data parse_text_datetime body) w in
  elements (registered 7 w) = [2; 1]%nat /\
  elements (registered 8 w) = [3]%nat /\
  snd (post_processed_agent_data parse_text_datetime body w) = inl TypeError /\
  table w' !! 1 =
    Some (through_columns (insert_values (sample_item text_datetime "normal" 7 "2024-01-01T00:00:00Z") 1)) /\
  sent_to 1%nat (trace w') = [] /\
  sent_to 2%nat (trace w') = [] /\
  sent_to 3%nat (trace w') = [].
Proof. vm_compute. repeat split. Qed.

(** C2 fails as stated: handles 1 and 2 are subscribed under user 7. With
    the connection of handle 1 closed, and then with that of handle 2
    closed, the broadcast raises; whichever of the two the loop meets first,
    in one of the two runs the open handle is sent nothing, and in both the
    closed handle is still registered afterwards. *)
Lemma broadcast_failure_not_isolated :
  let b := send_data_to_subscribers 7 (PyStr "row") in
  let w1 := exec b (set_closed {[1%nat]} (world_7_7_8 text_datetime)) in
  let w2 := exec b (set_closed {[2%nat]} (world_7_7_8 text_datetime)) in
  ~ (sent_to 2%nat (trace w1) <> [] /\ sent_to 1%nat (trace w2) <> []) /\
  ~ (1%nat ∉ registered 7 w1) /\
  ~ (2%nat ∉ registered 7 w2).
Proof.
  split; [|split].
  - intros [_ Hsent]. apply Hsent. vm_compute. reflexivity.
  - intros Hgone. apply Hgone. vm_compute. reflexivity.
  - intros Hgone. apply Hgone. vm_compute. reflexivity.
Qed.

Lemma broadcast_stops_at_failed_handle_witness :
  let w := set_closed {[1%nat]} (world_7_7_8 text_datetime) in
  elements ({[1%nat; 2%nat]} : gset nat) = [2%nat] ++ 1%nat :: [] /\
  exists w',
    send_data_to_subscribers 7 (PyStr "row") w = (w', inl (WebSocketSendError 1)) /\
    trace w' = trace w ++ EvBroadcast 7 (PyStr "row")
                 :: map (fun h => EvSend h (Dumps (PyStr "row"))) [2%nat] /\
    (forall h : nat, h ∈ 1%nat :: [] -> sent_to h (trace w') = sent_to h (trace w)) /\
    subscriptions w' = subscriptions w /\
    1%nat ∈ registered 7 w'.
Proof.
  intros w. split; [vm_compute; reflexivity|].
  apply (broadcast_stops_at_failed_handle text_datetime 7 (PyStr "row") w
           {[1%nat; 2%nat]} [2%nat] 1%nat []).
  - vm_compute. reflexivity.
  - vm_compute. reflexivity.
  - reflexivity.
  - intros h Hh. apply list_elem_of_singleton in Hh. subst h.
    vm_compute. intros H. discriminate H.
  - vm_compute. reflexivity.
Defined.

(** C3 fails as stated: the same record is created with no subscriber, and
    then with handles subscribed under its user id. The first request
    succeeds; in the second the row is committed, the broadcast raises, and
    the caller of create gets that exception. *)
Lemma broadcast_failure_surfaces_to_caller :
  let item := sample_item text_datetime "normal" 7 "2024-01-01T00:00:00Z" in
  let quiet := empty_world text_datetime in
  let w := world_7_7_8 text_datetime in
  snd (create_processed_agent_data [item] quiet) = inr RespNone /\
  snd (send_data_to_subscribers 7 (PyCursorResult 1)
         (exec (insert_and_commit item) w)) = inl TypeError /\
  table (exec (create_processed_agent_data [item]) w) !! 1 = Some (through_columns (insert_values item 1)) /\
  ~ (exists resp, snd (create_processed_agent_data [item] w) = inr resp).
Proof.
  vm_compute. repeat split. intros [resp H]. discriminate H.
Qed.

Lemma broadcast_failure_reaches_caller_witness :
  let item := sample_item text_datetime "normal" 7 "2024-01-01T00:00:00Z" in
  let w := world_7_7_8 text_datetime in
  exists w',
    create_processed_agent_data [item] w = (w', inl TypeError) /\
    table w' = table (exec (insert_and_commit item) (set_tx (table w) w)) /\
    table w' !! id_seq w = Some (through_columns (insert_values item (id_seq w))).
Proof.
  intros item w.
  apply (broadcast_failure_reaches_caller text_datetime item w
           (exec (insert_and_commit item) (set_tx (table w) w))
           (PyCursorResult 1)
           (exec (send_data_to_subscribers 7 (PyCursorResult 1))
              (exec (insert_and_commit item) (set_tx (table w) w)))
           TypeError).
  - vm_compute. reflexivity.
  - vm_compute. reflexivity.
Defined.

(** C4 fails as stated: the record of the scenario of section 8 is stored
    under id 1, and the handler returns [None], not the stored record. *)
Lemma create_returns_no_record :
  let body := PyList [sample_payload "normal" 42 (PyInt 1)] in
  let w := empty_world text_datetime in
  let w' := exec (post_processed_agent_data parse_text_datetime body) w in
  table w' !! 1 =
    Some (through_columns (insert_values (sample_item text_datetime "normal" 42 "2024-01-01T00:00:00Z") 1)) /\
  snd (post_processed_agent_data parse_text_datetime body w) = inr RespNone /\
  ~ (exists row, snd (post_processed_agent_data parse_text_datetime body w)
                 = inr (RespRecord row)).
Proof.
  vm_compute. repeat split. intros [row H]. discriminate H.
Qed.

Lemma create_stores_and_returns_none_witness :
  let item := sample_item text_datetime "normal" 42 "2024-01-01T00:00:00Z" in
  let w := empty_world text_datetime in
  store_reliable w /\
  exists w',
    create_processed_agent_data [item] w = (w', inr RespNone) /\
    table w' !! id_seq w = Some (through_columns (insert_values item (id_seq w))) /\
    col_id text_datetime (through_columns (insert_values item (id_seq w))) = id_seq w /\
    id_seq w' = id_seq w + 1.
Proof.
  intros item w.
  assert (Hrel : store_reliable w) by (unfold store_reliable; simpl; constructor).
  split; [exact Hrel|].
  apply (create_stores_and_returns_none text_datetime item w Hrel).
  vm_compute. reflexivity.
Defined.

(** C5 fails as stated: a payload whose [road_state] is the empty string,
    valid otherwise, passes validation; its row is written with the empty
    [road_state]. *)
Lemma empty_road_state_is_stored :
  let body := PyList [sample_payload "" 1 (PyInt 1)] in
  let w := empty_world text_datetime in
  let w' := exec (post_processed_agent_data parse_text_datetime body) w in
  snd (post_processed_agent_data parse_text_datetime body w) = inr RespNone /\
  col_road_state <$> table w' !! 1 = Some "" /\
  snd (post_processed_agent_data parse_text_datetime body w)
    <> inl RequestValidationError.
Proof.
  vm_compute. repeat split. intros H. discriminate H.
Qed.

Lemma invalid_item_rejected_before_persistence_witness :
  let v := sample_payload "" 1 (PyStr "not-a-number") in
  let w := world_7_7_8 text_datetime in
  constraint_violated parse_text_datetime v /\
  post_processed_agent_data parse_text_datetime (PyList [v]) w
  = (w, inl RequestValidationError).
Proof.
  intros v w.
  assert (Hbad : constraint_violated parse_text_datetime v).
  { right; right; left. reflexivity. }
  split; [exact Hbad|].
  apply (invalid_item_rejected_before_persistence text_datetime parse_text_datetime
           [v] v w); [apply list_elem_of_here | exact Hbad].
Defined.



Lemma missing_id_not_found_witness :
  let w := empty_world text_datetime in
  let data := sample_item text_datetime "normal" 42 "2024-01-01T00:00:00Z" in
  table w !! 5 = None /\
  (exists w', read_processed_agent_data 5 w =
                (w', inl (HTTPException 404 "ProcessedAgentData not found")) /\
              table w' = table w /\ id_seq w' = id_seq w) /\
  (exists w', update_processed_agent_data 5 data w =
                (w', inl (HTTPException 404 "ProcessedAgentData not found")) /\
              table w' = table w /\ id_seq w' = id_seq w) /\
  (exists w', delete_processed_agent_data 5 w =
                (w', inl (HTTPException 404 "ProcessedAgentData not found")) /\
              table w' = table w /\ id_seq w' = id_seq w).
Proof.
  intros w data. split; [reflexivity|].
  apply (missing_id_not_found text_datetime 5 data w).
  - reflexivity.
  - unfold store_reliable. simpl. constructor.
Defined.

Lemma delete_removes_exactly_one_witness :
  let item := sample_item text_datetime "normal" 42 "2024-01-01T00:00:00Z" in
  let w := exec (create_processed_agent_data [item; item]) (empty_world text_datetime) in
  let row := through_columns (insert_values item 2) in
  table w !! 2 = Some row /\
  exists w' deleted,
    delete_processed_agent_data 2 w = (w', inr (RespRecord deleted)) /\
    (rec_id text_datetime deleted = col_id text_datetime row /\
     rec_road_state text_datetime deleted = col_road_state row /\
     rec_user_id text_datetime deleted = col_user_id text_datetime row /\
     rec_x text_datetime deleted = col_x text_datetime row /\
     rec_y text_datetime deleted = col_y text_datetime row /\
     rec_z text_datetime deleted = col_z text_datetime row /\
     rec_latitude text_datetime deleted = col_latitude text_datetime row /\
     rec_longitude text_datetime deleted = col_longitude text_datetime row /\
     rec_timestamp text_datetime deleted = col_timestamp text_datetime row) /\
    table w' !! 2 = None /\
    (forall j, j <> 2 -> table w' !! j = table w !! j).
Proof.
  intros item w row.
  assert (Hrow : table w !! 2 = Some row) by (vm_compute; reflexivity).
  split; [exact Hrow|].
  apply (delete_removes_exactly_one text_datetime 2 row w Hrow).
  unfold store_reliable. vm_compute. constructor.
Defined.

Lemma commit_before_broadcast_witness :
  let item := sample_item text_datetime "normal" 7 "2024-01-01T00:00:00Z" in
  let w := world_7_7_8 text_datetime in
  let w' := exec (create_processed_agent_data [item]) w in
  let row := through_columns (insert_values item 1) in
  trace w' = trace w ++ [EvInsert row; EvCommit {[1 := row]}]
               ++ EvBroadcast 7 (PyCursorResult 1) :: [EvRollback] /\
  exists before t after,
    [EvInsert row; EvCommit {[1 := row]}] = before ++ EvCommit t :: after /\
    t !! id_seq w = Some (through_columns (insert_values item (id_seq w))) /\
    table w' !! id_seq w = Some (through_columns (insert_values item (id_seq w))) /\
    @EvBroadcast text_datetime 7 (PyCursorResult 1)
    = EvBroadcast (user_id text_datetime (agent_data text_datetime item))
        (PyCursorResult (id_seq w)).
Proof.
  intros item w w' row.
  assert (Htrace : trace w' = trace w ++ [EvInsert row; EvCommit {[1 := row]}]
                     ++ EvBroadcast 7 (PyCursorResult 1) :: [EvRollback])
    by (vm_compute; reflexivity).
  split; [exact Htrace|].
  apply (commit_before_broadcast text_datetime item w w'
           (snd (create_processed_agent_data [item] w))
           [EvInsert row; EvCommit {[1 := row]}]
           (EvBroadcast 7 (PyCursorResult 1)) [EvRollback]).
  - vm_compute. reflexivity.
  - exact Htrace.
  - reflexivity.
Defined.

(** A batch in which the store rejects the insert of the second item: the
    first row stays committed, the third item is not attempted. *)
Example create_batch_store_fault :
  let item := sample_item text_datetime "normal" 42 "2024-01-01T00:00:00Z" in
  let w := set_db_faults [false; false; true] (empty_world text_datetime) in
  let w' := exec (create_processed_agent_data [item; item; item]) w in
  snd (create_processed_agent_data [item; item; item] w) = inl DBAPIError /\
  table w' = {[1 := through_columns (insert_values item 1)]} /\
  trace w' = [EvInsert (through_columns (insert_values item 1));
              EvCommit {[1 := through_columns (insert_values item 1)]};
              EvBroadcast 42 (PyCursorResult 1);
              EvRollback].
Proof. vm_compute. repeat split. Qed.

Lemma create_batch_partial_success_witness :
  let quiet := sample_item text_datetime "normal" 42 "2024-01-01T00:00:00Z" in
  let loud := sample_item text_datetime "bumpy" 7 "2024-01-01T00:00:00Z" in
  let w := world_7_7_8 text_datetime in
  let w1 := exec (create_processed_agent_data [quiet; quiet]) w in
  let w2 := exec (create_processed_agent_data [loud]) w1 in
  (forall rest,
     create_processed_agent_data ([quiet; quiet] ++ rest) w
     = create_processed_agent_data rest w1) /\
  create_processed_agent_data ([quiet; quiet] ++ loud :: [quiet]) w = (w2, inl TypeError) /\
  forall (i : nat) it, [quiet; quiet] !! i = Some it ->
    table w1 !! (id_seq w + Z.of_nat i) = Some (through_columns (insert_values it (id_seq w + Z.of_nat i))) /\
    table w2 !! (id_seq w + Z.of_nat i) = Some (through_columns (insert_values it (id_seq w + Z.of_nat i))).
Proof.
  intros quiet loud w w1 w2.
  apply (create_batch_partial_success text_datetime [quiet; quiet] loud [quiet] w w1 w2
           RespNone TypeError).
  - vm_compute. reflexivity.
  - vm_compute. reflexivity.
Defined.

Arguments run {datetime columns} _ _.
Arguments perform {datetime columns} _ _.
Arguments store_coherent {datetime} _.
Arguments pushes {datetime} _.
Arguments ActCreate {datetime} _.
Arguments ActRead {datetime} _.
Arguments ActList {datetime}.
Arguments ActUpdate {datetime} _ _.
Arguments ActDelete {datetime} _.
Arguments ActConnect {datetime} _ _.
Arguments ActDisconnect {datetime} _ _.
Arguments ActStoreFaults {datetime} _.
Arguments ActConnectionLost {datetime} _.
Arguments websocket_endpoint_connect {datetime} _ _ _.
Arguments websocket_endpoint_disconnect {datetime} _ _ _.
Arguments list_processed_agent_data {datetime} _.
Arguments RespList {datetime} _.
Arguments from_row {datetime} _.
Arguments rec_id {datetime} _.
Arguments set_trace {datetime} _ _.

(** ** The further properties at work *)

Lemma disconnected_handle_is_passed_by_witness :
  let w := world_7_7_8 text_datetime in
  exists w1 w2,
    websocket_endpoint_disconnect 1%nat 7 w = (w1, inr tt) /\
    send_data_to_subscribers 7 (PyStr "row") w1 = (w2, inr tt) /\
    sent_to 1%nat (trace w2) = sent_to 1%nat (trace w) /\
    forall h : nat, h ∈ registered 7 w -> h <> 1%nat ->
      sent_to h (trace w2) = sent_to h (trace w) ++ [Dumps (PyStr "row")].
Proof.
  intros w.
  apply (disconnected_handle_is_passed_by text_datetime 1%nat 7 (PyStr "row") w).
  - vm_compute. reflexivity.
  - reflexivity.
  - intros h _ _ Hc. vm_compute in Hc. discriminate Hc.
Defined.

Lemma broadcast_without_subscribers_witness :
  let w := world_7_7_8 text_datetime in
  send_data_to_subscribers 9 (PyCursorResult 1) w
  = (set_trace (trace w ++ [EvBroadcast 9 (PyCursorResult 1)]) w, inr tt).
Proof.
  intros w.
  apply (broadcast_without_subscribers text_datetime 9 (PyCursorResult 1) w).
  vm_compute. reflexivity.
Defined.

Lemma broadcast_delivers_exactly_once_witness :
  let w := world_7_7_8 text_datetime in
  exists w',
    send_data_to_subscribers 7 (PyStr "row") w = (w', inr tt) /\
    trace w' = trace w ++ EvBroadcast 7 (PyStr "row")
                 :: map (fun h => EvSend h (Dumps (PyStr "row")))
                      (elements (registered 7 w)) /\
    (forall h : nat, sent_to h (trace w') =
       sent_to h (trace w) ++
       if decide (h ∈ registered 7 w) then [Dumps (PyStr "row")] else []) /\
    table w' = table w /\ id_seq w' = id_seq w /\ subscriptions w' = subscriptions w.
Proof.
  intros w.
  apply (broadcast_delivers_exactly_once text_datetime 7 (PyStr "row") w).
  - reflexivity.
  - intros h _ Hc. vm_compute in Hc. discriminate Hc.
Defined.

Lemma broadcast_unserializable_raises_witness :
  let w := world_7_7_8 text_datetime in
  send_data_to_subscribers 7 (PyCursorResult 1) w
  = (set_trace (trace w ++ [EvBroadcast 7 (PyCursorResult 1)]) w, inl TypeError).
Proof.
  intros w.
  apply (broadcast_unserializable_raises text_datetime 7 (PyCursorResult 1) w).
  - reflexivity.
  - intros Hc. vm_compute in Hc. discriminate Hc.
Defined.

Lemma create_outcome_by_subscribers_witness :
  let item := sample_item text_datetime "normal" 7 "2024-01-01T00:00:00Z" in
  let w := world_7_7_8 text_datetime in
  exists w',
    create_processed_agent_data [item] w
    = (w', if decide (registered 7 w = ∅) then inr RespNone else inl TypeError) /\
    table w' = <[id_seq w := through_columns (insert_values item (id_seq w))]> (table w) /\
    id_seq w' = id_seq w + 1 /\
    forall h : nat, sent_to h (trace w') = sent_to h (trace w).
Proof.
  intros item w.
  apply (create_outcome_by_subscribers text_datetime item w).
  unfold store_reliable. simpl. constructor.
Defined.

Lemma create_store_fault_rolls_back_witness :
  let item := sample_item text_datetime "normal" 42 "2024-01-01T00:00:00Z" in
  let w := set_db_faults [false; true] (empty_world text_datetime) in
  exists w',
    create_processed_agent_data [item] w = (w', inl DBAPIError) /\
    table w' = table w /\
    pushes (trace w') = pushes (trace w) /\
    subscriptions w' = subscriptions w /\
    id_seq w' = id_seq w + 1.
Proof.
  intros item w.
  apply (create_store_fault_rolls_back text_datetime item w).
  right. reflexivity.
Defined.

Lemma create_keeps_stored_rows_witness :
  let item := sample_item text_datetime "normal" 42 "2024-01-01T00:00:00Z" in
  let loud := sample_item text_datetime "bumpy" 7 "2024-01-01T00:00:00Z" in
  let w := perform (ActCreate [item]) (world_7_7_8 text_datetime) in
  let w' := exec (create_processed_agent_data [item; loud; item]) w in
  (forall j row, table w !! j = Some row -> table w' !! j = Some row) /\
  subscriptions w' = subscriptions w /\
  id_seq w <= id_seq w'.
Proof.
  intros item loud w.
  apply (create_keeps_stored_rows text_datetime [item; loud; item] w).
  apply (perform_coherent text_datetime (ActCreate [item]) (world_7_7_8 text_datetime)).
  intros j row Hj. vm_compute in Hj. discriminate Hj.
Defined.

Lemma create_quiet_batch_succeeds_witness :
  let item := sample_item text_datetime "normal" 42 "2024-01-01T00:00:00Z" in
  let w := world_7_7_8 text_datetime in
  exists w',
    create_processed_agent_data [item; item] w = (w', inr RespNone) /\
    id_seq w' = id_seq w + Z.of_nat (length [item; item]) /\
    (forall (i : nat) it, [item; item] !! i = Some it ->
       table w' !! (id_seq w + Z.of_nat i)
       = Some (through_columns (insert_values it (id_seq w + Z.of_nat i)))) /\
    (forall j, j < id_seq w \/ id_seq w + Z.of_nat (length [item; item]) <= j ->
       table w' !! j = table w !! j).
Proof.
  intros item w.
  apply (create_quiet_batch_succeeds text_datetime [item; item] w).
  - unfold store_reliable. simpl. constructor.
  - repeat constructor.
Defined.

Lemma read_returns_stored_row_witness :
  let item := sample_item text_datetime "normal" 42 "2024-01-01T00:00:00Z" in
  let w := perform (ActCreate [item]) (empty_world text_datetime) in
  let row := through_columns (insert_values item 1) in
  exists w' stored,
    read_processed_agent_data 1 w = (w', inr (RespRecord stored)) /\
    stored = from_row row /\
    rec_id stored = 1 /\
    rec_road_state text_datetime stored = col_road_state row /\
    rec_user_id text_datetime stored = col_user_id text_datetime row /\
    rec_timestamp text_datetime stored = col_timestamp text_datetime row.
Proof.
  intros item w row.
  apply (read_returns_stored_row text_datetime 1 row w).
  - vm_compute. reflexivity.
  - vm_compute. reflexivity.
  - apply (perform_coherent text_datetime (ActCreate [item]) (empty_world text_datetime)).
    apply empty_world_coherent.
Defined.

Lemma list_returns_each_row_once_witness :
  let item := sample_item text_datetime "normal" 42 "2024-01-01T00:00:00Z" in
  let w := perform (ActCreate [item; item]) (empty_world text_datetime) in
  exists w' l,
    list_processed_agent_data w = (w', inr (RespList l)) /\
    (forall stored, stored ∈ l <->
       exists row, table w !! rec_id stored = Some row /\ stored = from_row row) /\
    length l = size (table w) /\
    NoDup (rec_id <$> l).
Proof.
  intros item w.
  apply (list_returns_each_row_once text_datetime w).
  - vm_compute. reflexivity.
  - apply (perform_coherent text_datetime (ActCreate [item; item])
             (empty_world text_datetime)).
    apply empty_world_coherent.
Defined.


Lemma update_twice_is_update_once_witness :
  let item := sample_item text_datetime "normal" 42 "2024-01-01T00:00:00Z" in
  let data := sample_item text_datetime "bumpy" 7 "2024-01-01T00:00:00Z" in
  let w := perform (ActCreate [item; item]) (world_7_7_8 text_datetime) in
  exists w1 w2 stored,
    update_processed_agent_data 1 data w = (w1, inr (RespRecord stored)) /\
    update_processed_agent_data 1 data w1 = (w2, inr (RespRecord stored)) /\
    table w2 = table w1.
Proof.
  intros item data w.
  apply (update_twice_is_update_once text_datetime 1 data (through_columns (insert_values item 1)) w).
  - vm_compute. reflexivity.
  - unfold store_reliable. vm_compute. constructor.
Defined.


Lemma delete_is_final_witness :
  let item := sample_item text_datetime "normal" 42 "2024-01-01T00:00:00Z" in
  let w := perform (ActCreate [item; item]) (world_7_7_8 text_datetime) in
  let w1 := exec (delete_processed_agent_data 1) w in
  table w1 !! 1 = None /\
  snd (read_processed_agent_data 1 w1)
    = inl (HTTPException 404 "ProcessedAgentData not found") /\
  snd (update_processed_agent_data 1 item w1)
    = inl (HTTPException 404 "ProcessedAgentData not found") /\
  snd (delete_processed_agent_data 1 w1)
    = inl (HTTPException 404 "ProcessedAgentData not found").
Proof.
  intros item w.
  apply (delete_is_final text_datetime 1 (through_columns (insert_values item 1)) item w).
  - vm_compute. reflexivity.
  - unfold store_reliable. vm_compute. constructor.
Defined.

Lemma store_stays_coherent_witness :
  let item := sample_item text_datetime "normal" 42 "2024-01-01T00:00:00Z" in
  let loud := sample_item text_datetime "bumpy" 7 "2024-01-01T00:00:00Z" in
  let l := [ActCreate [item; loud]; ActConnect 1%nat 7; ActCreate [loud; item];
            ActDelete 1; ActStoreFaults [false; true]; ActCreate [item];
            ActUpdate 2 item; ActDisconnect 1%nat 7; ActCreate [loud]] in
  let w := empty_world text_datetime in
  store_coherent (run l w) /\
  id_seq w <= id_seq (run l w) /\
  exists new,
    trace (run l w) = trace w ++ new /\
    NoDup (ids_drawn text_datetime new) /\
    forall j, j ∈ ids_drawn text_datetime new ->
      table w !! j = None /\ id_seq w <= j < id_seq (run l w).
Proof.
  intros item loud l w.
  apply (store_stays_coherent text_datetime l w).
  apply empty_world_coherent.
Defined.

(** The run of the last witness: the second batch stops at its first
    record, whose user has a subscriber by then; the insert after the
    faults were set is rolled back, its id is spent. *)
Example store_stays_coherent_run :
  let item := sample_item text_datetime "normal" 42 "2024-01-01T00:00:00Z" in
  let loud := sample_item text_datetime "bumpy" 7 "2024-01-01T00:00:00Z" in
  let l := [ActCreate [item; loud]; ActConnect 1%nat 7; ActCreate [loud; item];
            ActDelete 1; ActStoreFaults [false; true]; ActCreate [item];
            ActUpdate 2 item; ActDisconnect 1%nat 7; ActCreate [loud]] in
  let w := run l (empty_world text_datetime) in
  table w = {[2 := through_columns (insert_values item 2);
              3 := through_columns (insert_values loud 3);
              5 := through_columns (insert_values loud 5)]} /\
  ids_drawn text_datetime (trace w) = [1; 2; 3; 4; 5] /\
  id_seq w = 6 /\
  subscriptions w = {[7 := ∅]}.
Proof. vm_compute. repeat split. Qed.
